(** * Codificador/Decodificador Universal: a shallow embedding

    The development follows [src/codificador_universal.py].  Python's
    unbounded [int] is [Z]; a [str] of bits is a [list ascii]; the class
    [CodificadorUniversal] is the record [Codificador] together with the
    functions that take it as [self]; an exception is the [Raise] outcome
    of a small error monad.  The console narration guarded by
    [self.verbose] returns nothing and is left out. *)

From Stdlib Require Import ZArith List Ascii Bool Lia Arith.
From Stdlib Require String.
Import ListNotations String.StringSyntax.
Delimit Scope string_scope with string.
Local Open Scope Z_scope.

(** ** Outcomes of a call *)

(** The three messages of [ConfiguracionInvalidaError]: "Base ... no
    permitida", "Potencia ... no permitida para base ..." and "Tamaño de
    bloque ... fuera de rango". *)
Inductive motivo_configuracion : Type :=
| BaseNoPermitida
| PotenciaNoPermitida
| TamanoFueraDeRango.

(** The messages of [ValueError]: the three of [decodificar] ("La base no
    coincide ...", "La potencia no coincide ...", "El tamaño de bloque no
    coincide ..."), and those of the interpreter for an invalid literal of
    [int], a negative shift count and a zero step of [range]. *)
Inductive motivo_valor : Type :=
| BaseNoCoincide
| PotenciaNoCoincide
| TamanoBloqueNoCoincide
| LiteralInvalido
| DesplazamientoNegativo
| PasoDeRangoCero.

Inductive excepcion : Type :=
| ConfiguracionInvalidaError (m : motivo_configuracion)
| ValueError (m : motivo_valor)
| ZeroDivisionError
| OverflowError.

(** [NoTermina] is the outcome of a [while] loop that never leaves. *)
Inductive resultado (A : Type) : Type :=
| Ok (a : A)
| Raise (e : excepcion)
| NoTermina.

Arguments Ok {A} a.
Arguments Raise {A} e.
Arguments NoTermina {A}.

Definition bind {A B : Type} (r : resultado A) (k : A -> resultado B)
  : resultado B :=
  match r with
  | Ok a => k a
  | Raise e => Raise e
  | NoTermina => NoTermina
  end.

Notation "x <- r ;; k" := (bind r (fun x => k))
  (at level 61, r at next level, right associativity).

(** ** Python primitives used by the codec *)

Module Py.

Definition cero : ascii := "0"%char.
Definition uno : ascii := "1"%char.

(** ['0' * n]: a negative count gives the empty string. *)
Definition ceros (n : Z) : list ascii := repeat cero (Z.to_nat n).

Definition es_bit (c : ascii) : bool :=
  Ascii.eqb c cero || Ascii.eqb c uno.

(** The strings of the BitString type: only '0' and '1'. *)
Definition es_binario (s : list ascii) : bool := forallb es_bit s.

Definition valor_bit (c : ascii) : Z := if Ascii.eqb c uno then 1 else 0.

(** The number a bit string spells, most significant digit first. *)
Definition valor (s : list ascii) : Z :=
  fold_left (fun acc c => 2 * acc + valor_bit c) s 0.

(** [int(s, 2)] on bit strings: the value of the digits, and the empty
    string is an invalid literal.  Python also
    reads a sign, surrounding blanks, a [0b] prefix and single
    underscores; those spellings are not bit strings and every string
    that is not one is reported here as the invalid literal. *)
Definition int2 (s : list ascii) : resultado Z :=
  match s with
  | [] => Raise (ValueError LiteralInvalido)
  | _ => if es_binario s then Ok (valor s)
         else Raise (ValueError LiteralInvalido)
  end.

(** [n.bit_length()]. *)
Definition bit_length (n : Z) : Z :=
  if n =? 0 then 0 else Z.log2 (Z.abs n) + 1.

Fixpoint digitos_pos (p : positive) (acc : list ascii) : list ascii :=
  match p with
  | xH => uno :: acc
  | xO q => digitos_pos q (cero :: acc)
  | xI q => digitos_pos q (uno :: acc)
  end.

(** [bin(n)]: ["0b..."], with a leading ["-"] for a negative number. *)
Definition bin (n : Z) : list ascii :=
  match n with
  | Z0 => ["0"; "b"; "0"]%char
  | Zpos p => ["0"; "b"]%char ++ digitos_pos p []
  | Zneg p => ["-"; "0"; "b"]%char ++ digitos_pos p []
  end.

(** [s[k:]] for [k >= 0]. *)
Definition desde (k : nat) (s : list ascii) : list ascii := skipn k s.

(** [s.zfill(n)]: zeros go after a leading sign. *)
Definition zfill (n : Z) (s : list ascii) : list ascii :=
  let relleno := ceros (n - Z.of_nat (length s)) in
  match s with
  | c :: r =>
      if Ascii.eqb c "+"%char || Ascii.eqb c "-"%char
      then c :: relleno ++ r
      else relleno ++ s
  | [] => relleno
  end.

(** [s[:-k]] for [k > 0]. *)
Definition sin_ultimos (k : Z) (s : list ascii) : list ascii :=
  firstn (length s - Z.to_nat k)%nat s.

(** [range(0, stop, step)] as the list of its indices. *)
Definition range0 (stop step : Z) : resultado (list nat) :=
  if step =? 0 then Raise (ValueError PasoDeRangoCero)
  else if step <? 0 then Ok []
  else Ok (map (fun k => (k * Z.to_nat step)%nat)
               (seq 0 (Z.to_nat ((stop + step - 1) / step)))).

End Py.

(** ** The codec object *)

Record Codificador : Type := {
  base : Z;
  potencia : Z;
  bits_por_bloque : Z
}.

Definition POTENCIAS_BASE_2 : list Z :=
  [2^1; 2^2; 2^4; 2^8; 2^16; 2^32; 2^64].
Definition POTENCIAS_BASE_5 : list Z := [5^1; 5^2; 5^3; 5^4].
Definition BITS_MINIMO : Z := 10.
Definition BITS_MAXIMO : Z := 1000.

Definition en_lista (x : Z) (l : list Z) : bool := existsb (Z.eqb x) l.

(** [raise e] under a condition, as a statement. *)
Definition si_lanza (c : bool) (e : excepcion) : resultado unit :=
  if c then Raise e else Ok tt.

(** [CodificadorUniversal.__init__]. *)
Definition init (b p n : Z) : resultado Codificador :=
  _ <- si_lanza (negb (en_lista b [2; 5]))
         (ConfiguracionInvalidaError BaseNoPermitida) ;;
  _ <- (if b =? 2
        then si_lanza (negb (en_lista p POTENCIAS_BASE_2))
               (ConfiguracionInvalidaError PotenciaNoPermitida)
        else if b =? 5
        then si_lanza (negb (en_lista p POTENCIAS_BASE_5))
               (ConfiguracionInvalidaError PotenciaNoPermitida)
        else Ok tt) ;;
  _ <- si_lanza (negb ((BITS_MINIMO <=? n) && (n <=? BITS_MAXIMO)))
         (ConfiguracionInvalidaError TamanoFueraDeRango) ;;
  Ok {| base := b; potencia := p; bits_por_bloque := n |}.

(** A codec object is one that [__init__] returned. *)
Definition valido (self : Codificador) : Prop :=
  init (base self) (potencia self) (bits_por_bloque self) = Ok self.

(** A [for] loop whose body may raise, threading the loop state. *)
Fixpoint para_cada {A S : Type} (f : S -> A -> resultado S)
  (l : list A) (s : S) : resultado S :=
  match l with
  | [] => Ok s
  | x :: r => s' <- f s x ;; para_cada f r s'
  end.

(** [enumerate(l, k)]. *)
Definition enumerate {A : Type} (k : nat) (l : list A) : list (Z * A) :=
  combine (map Z.of_nat (seq k (length l))) l.

(** [x << k] and [x >> k]: a negative count raises. *)
Definition desplazar_izq (x k : Z) : resultado Z :=
  if k <? 0 then Raise (ValueError DesplazamientoNegativo)
  else Ok (Z.shiftl x k).

Definition desplazar_der (x k : Z) : resultado Z :=
  if k <? 0 then Raise (ValueError DesplazamientoNegativo)
  else Ok (Z.shiftr x k).

(** ** Block segmenter *)

(** The body of the loop of [binario_a_bloques] at index [i]. *)
Definition paso_bloque (n : Z) (datos_binarios : list ascii)
  (st : list (list ascii) * Z) (i : nat) : list (list ascii) * Z :=
  let '(bloques, bits_padding) := st in
  let bloque := firstn (Z.to_nat n) (skipn i datos_binarios) in
  if Z.of_nat (length bloque) <? n
  then let bits_padding' := n - Z.of_nat (length bloque) in
       (bloques ++ [bloque ++ Py.ceros bits_padding'], bits_padding')
  else (bloques ++ [bloque], bits_padding).

Definition binario_a_bloques (self : Codificador)
  (datos_binarios : list ascii) : resultado (list (list ascii) * Z) :=
  indices <- Py.range0 (Z.of_nat (length datos_binarios))
               (bits_por_bloque self) ;;
  Ok (fold_left (paso_bloque (bits_por_bloque self) datos_binarios)
        indices ([], 0)).

(** ** Block encoders *)

(** [if not l: l = [0]]: the block of zeros leaves the loop with no digit
    and is given the single digit zero. *)
Definition canonico (l : list Z) : list Z :=
  match l with [] => [0] | _ => l end.

(** The [while valor_actual > 0] loop of [codificar_bloque_base2]. *)
Fixpoint bucle_ventanas (fuel : nat) (bits_ventana mascara valor_actual : Z)
  (ventanas : list Z) : resultado (list Z) :=
  if valor_actual >? 0 then
    match fuel with
    | O => NoTermina
    | S fuel' =>
        let ventana := Z.land valor_actual mascara in
        siguiente <- desplazar_der valor_actual bits_ventana ;;
        bucle_ventanas fuel' bits_ventana mascara siguiente
          (ventanas ++ [ventana])
    end
  else Ok ventanas.

(** Each turn of either loop at least halves a positive value once the
    window is one bit wide or the divisor is two, so the number of binary
    digits of the value bounds the number of turns. *)
Definition vueltas (valor_decimal : Z) : nat :=
  Z.to_nat (Py.bit_length valor_decimal).

Definition codificar_bloque_base2 (self : Codificador)
  (bloque_binario : list ascii) : resultado (list Z) :=
  valor_decimal <- Py.int2 bloque_binario ;;
  let bits_ventana := Py.bit_length (potencia self) - 1 in
  let mascara := potencia self - 1 in
  ventanas <- bucle_ventanas (vueltas valor_decimal) bits_ventana mascara
                valor_decimal [] ;;
  Ok (canonico ventanas).

(** The [while cociente > 0] loop of [codificar_bloque_base5]. *)
Fixpoint bucle_residuos (fuel : nat) (pot cociente : Z) (residuos : list Z)
  : resultado (list Z) :=
  if cociente >? 0 then
    match fuel with
    | O => NoTermina
    | S fuel' =>
        if pot =? 0 then Raise ZeroDivisionError
        else
          let residuo := cociente mod pot in
          bucle_residuos fuel' pot (cociente / pot) (residuos ++ [residuo])
    end
  else Ok residuos.

Definition codificar_bloque_base5 (self : Codificador)
  (bloque_binario : list ascii) : resultado (list Z) :=
  valor_decimal <- Py.int2 bloque_binario ;;
  residuos <- bucle_residuos (vueltas valor_decimal) (potencia self)
                valor_decimal [] ;;
  Ok (canonico residuos).

(** ** Block decoders *)

(** [bin(v)[2:].zfill(n)], or ['0' * n] for zero. *)
Definition a_binario (n valor_reconstruido : Z) : list ascii :=
  if valor_reconstruido =? 0 then Py.ceros n
  else Py.zfill n (Py.desde 2 (Py.bin valor_reconstruido)).

Definition reconstruir_base2 (bits_ventana : Z) (valores : list Z)
  : resultado Z :=
  para_cada
    (fun valor_reconstruido '(idx, ventana) =>
       d <- desplazar_izq ventana (idx * bits_ventana) ;;
       Ok (Z.lor valor_reconstruido d))
    (enumerate 0 valores) 0.

Definition decodificar_bloque_base2 (self : Codificador) (valores : list Z)
  : resultado (list ascii) :=
  let bits_ventana := Py.bit_length (potencia self) - 1 in
  valor_reconstruido <- reconstruir_base2 bits_ventana valores ;;
  Ok (a_binario (bits_por_bloque self) valor_reconstruido).

Definition reconstruir_base5 (pot : Z) (residuos : list Z) : Z :=
  fold_left
    (fun valor_reconstruido '(idx, residuo) =>
       let contribucion := residuo * pot ^ idx in
       valor_reconstruido + contribucion)
    (enumerate 0 residuos) 0.

Definition decodificar_bloque_base5 (self : Codificador) (residuos : list Z)
  : resultado (list ascii) :=
  Ok (a_binario (bits_por_bloque self)
        (reconstruir_base5 (potencia self) residuos)).

(** ** Stream codec *)

Section Flujo.

(** The type of [time.time()] differences; the codec stores one and never
    looks at it. *)
Variable tiempo : Type.

(** The dictionary returned by [codificar], one field per key; the keys
    ['base'], ['potencia'] and ['bits_por_bloque'] carry the prefix [d_],
    which keeps them apart from the attributes of the codec. *)
Record DatosCodificados : Type := {
  bloques_codificados : list (list Z);
  bits_padding : Z;
  d_base : Z;
  d_potencia : Z;
  d_bits_por_bloque : Z;
  num_bloques : Z;
  bits_originales : Z;
  tiempo_codificacion : tiempo
}.

Definition codificar_bloque (self : Codificador) (bloque : list ascii)
  : resultado (list Z) :=
  if base self =? 2 then codificar_bloque_base2 self bloque
  else codificar_bloque_base5 self bloque.

(** [codificar]; [transcurrido] is the clock difference it measures. *)
Definition codificar (self : Codificador) (transcurrido : tiempo)
  (datos_binarios : list ascii) : resultado DatosCodificados :=
  segmentado <- binario_a_bloques self datos_binarios ;;
  let '(bloques, padding) := segmentado in
  codificados <-
    para_cada
      (fun acc '(idx, bloque) =>
         valores <- codificar_bloque self bloque ;;
         Ok (acc ++ [valores]))
      (enumerate 1 bloques) [] ;;
  Ok {| bloques_codificados := codificados;
        bits_padding := padding;
        d_base := base self;
        d_potencia := potencia self;
        d_bits_por_bloque := bits_por_bloque self;
        num_bloques := Z.of_nat (length bloques);
        bits_originales := Z.of_nat (length datos_binarios);
        tiempo_codificacion := transcurrido |}.

Definition decodificar_bloque (self : Codificador) (valores : list Z)
  : resultado (list ascii) :=
  if base self =? 2 then decodificar_bloque_base2 self valores
  else decodificar_bloque_base5 self valores.

(** The part of [decodificar] after the three parameter checks. *)
Definition decodificar_bloques (self : Codificador)
  (datos_codificados : DatosCodificados) : resultado (list ascii) :=
  decodificados <-
    para_cada
      (fun acc '(idx, valores) =>
         bloque <- decodificar_bloque self valores ;;
         Ok (acc ++ [bloque]))
      (enumerate 1 (bloques_codificados datos_codificados)) [] ;;
  let datos_reconstruidos := concat decodificados in
  Ok (if bits_padding datos_codificados >? 0
      then Py.sin_ultimos (bits_padding datos_codificados)
             datos_reconstruidos
      else datos_reconstruidos).

Definition decodificar (self : Codificador)
  (datos_codificados : DatosCodificados) : resultado (list ascii) :=
  _ <- si_lanza (negb (d_base datos_codificados =? base self))
         (ValueError BaseNoCoincide) ;;
  _ <- si_lanza (negb (d_potencia datos_codificados =? potencia self))
         (ValueError PotenciaNoCoincide) ;;
  _ <- si_lanza
         (negb (d_bits_por_bloque datos_codificados =? bits_por_bloque self))
         (ValueError TamanoBloqueNoCoincide) ;;
  decodificar_bloques self datos_codificados.

End Flujo.

Arguments bloques_codificados {tiempo} _.
Arguments bits_padding {tiempo} _.
Arguments d_base {tiempo} _.
Arguments d_potencia {tiempo} _.
Arguments d_bits_por_bloque {tiempo} _.
Arguments num_bloques {tiempo} _.
Arguments bits_originales {tiempo} _.
Arguments tiempo_codificacion {tiempo} _.
Arguments codificar {tiempo} self transcurrido datos_binarios.
Arguments decodificar {tiempo} self datos_codificados.
Arguments decodificar_bloques {tiempo} self datos_codificados.

(** ** Integrity verifier *)

Section Analizador.

(** [hashlib.sha256(b).hexdigest()], a function of the bytes. *)
Variable sha256_hexdigest : list Z -> list ascii.

Definition cadenas_iguales (a b : list ascii) : bool :=
  if list_eq_dec ascii_dec a b then true else false.

(** [v.to_bytes(n, byteorder='big')]. *)
Definition to_bytes (v : Z) (n : Z) : resultado (list Z) :=
  if (v <? 0) || (256 ^ n <=? v) then Raise OverflowError
  else Ok (map (fun k => Z.land (Z.shiftr v (8 * (n - 1 - Z.of_nat k))) 255)
             (seq 0 (Z.to_nat n))).

Definition a_bytes (datos_binarios : list ascii) : resultado (list Z) :=
  let largo := Z.of_nat (length datos_binarios) in
  let padding_bytes := (8 - largo mod 8) mod 8 in
  let datos_padded := datos_binarios ++ Py.ceros padding_bytes in
  valor <- Py.int2 datos_padded ;;
  to_bytes valor (Z.of_nat (length datos_padded) / 8).

Definition calcular_sha256 (datos_binarios : list ascii)
  : resultado (list ascii) :=
  bytes_data <- a_bytes datos_binarios ;;
  Ok (sha256_hexdigest bytes_data).

Definition verificar_integridad (original decodificado : list ascii)
  : resultado bool :=
  let coinciden_bits := cadenas_iguales original decodificado in
  hash_original <- calcular_sha256 original ;;
  hash_decodificado <- calcular_sha256 decodificado ;;
  let coinciden_hash := cadenas_iguales hash_original hash_decodificado in
  let integridad_ok := coinciden_bits && coinciden_hash in
  Ok integridad_ok.

End Analizador.

(** Bit strings written as string literals. *)
Definition bits (s : String.string) : list ascii :=
  String.list_ascii_of_string s.

(** The legal parameter space of the validator. *)
Definition potencia_legal (b p : Z) : Prop :=
  (b = 2 /\ In p [2; 4; 16; 256; 65536; 4294967296; 18446744073709551616])
  \/ (b = 5 /\ In p [5; 25; 125; 625]).

Definition tamano_legal (n : Z) : Prop := 10 <= n <= 1000.

(** [valor] on a numeral that starts with a one, read as a [positive]. *)
Definition doblar (p : positive) (c : ascii) : positive :=
  if Ascii.eqb c Py.uno then xI p else xO p.

(** The specification's reading of a digit sequence: the sum over all
    indices [i], counted from [k], of a term built from [i] and digit [i]. *)
Definition suma (termino : Z -> Z -> Z) (k : nat) (digitos : list Z) : Z :=
  fold_right Z.add 0
    (map (fun '(i, d) => termino i d) (enumerate k digitos)).

(** [Σ digit[i] << (i * w)]. *)
Definition suma_ventanas (w : Z) (digitos : list Z) : Z :=
  suma (fun i d => Z.shiftl d (i * w)) 0 digitos.

(** [Σ digit[i] * power^i]. *)
Definition suma_residuos (pot : Z) (digitos : list Z) : Z :=
  suma (fun i d => d * pot ^ i) 0 digitos.

(** ** Conversions between bytes and bit strings *)

(** The digits that [format(n, 'b')] prints: the binary numeral, after a
    minus sign for a negative number. *)
Definition digitos_con_signo (n : Z) : list ascii :=
  match n with
  | Z0 => [Py.cero]
  | Zpos p => Py.digitos_pos p []
  | Zneg p => "-"%char :: Py.digitos_pos p []
  end.

(** [format(byte, '08b')]: the zeros that fill the width of 8 go after the
    sign, as those of [zfill] do. *)
Definition formato_08b (byte : Z) : list ascii :=
  Py.zfill 8 (digitos_con_signo byte).

(** [bytes_a_binario]; a [bytes] object is the list of its elements. *)
Definition bytes_a_binario (datos_bytes : list Z) : list ascii :=
  concat (map formato_08b datos_bytes).

Definition binario_a_bytes (datos_binarios : list ascii)
  : resultado (list Z) :=
  let padding := (8 - Z.of_nat (length datos_binarios) mod 8) mod 8 in
  let datos_padded := datos_binarios ++ Py.ceros padding in
  valor <- Py.int2 datos_padded ;;
  to_bytes valor (Z.of_nat (length datos_padded) / 8).

(** The elements of a [bytes] object. *)
Definition es_byte (b : Z) : Prop := 0 <= b < 256.

(** The number a byte string spells, most significant byte first. *)
Definition valor_bytes (datos_bytes : list Z) : Z :=
  fold_left (fun acc b => 256 * acc + b) datos_bytes 0.

(** ** Efficiency metrics *)

(** [max] of a sequence of integers; [None] is the [ValueError] it raises
    on an empty one. *)
Definition max_de (l : list Z) : option Z :=
  match l with
  | [] => None
  | x :: r => Some (fold_left Z.max r x)
  end.

(** [if bloque] on a list. *)
Definition no_vacio (bloque : list Z) : bool :=
  match bloque with [] => false | _ => true end.

(** The maxima the inner generator of [calcular_metricas] yields, one per
    non-empty block, in order. *)
Fixpoint maximos_interiores (bloques : list (list Z)) : option (list Z) :=
  match bloques with
  | [] => Some []
  | bloque :: resto =>
      if no_vacio bloque
      then match max_de (map Py.bit_length bloque) with
           | None => None
           | Some m =>
               match maximos_interiores resto with
               | None => None
               | Some ms => Some (m :: ms)
               end
           end
      else maximos_interiores resto
  end.

(** [sum(len(bloque) for bloque in bloques)]. *)
Definition total_de_valores (bloques : list (list Z)) : Z :=
  fold_left (fun acc bloque => acc + Z.of_nat (length bloque)) bloques 0.

(** The two ways in which [calcular_metricas] raises: the [ValueError] of
    [max] on an empty sequence and the [ZeroDivisionError] of [/]. *)
Inductive fallo_metricas : Type :=
| MaxDeSecuenciaVacia
| DivisionEntreCero.

Section Metricas.

Variable tiempo : Type.

(** The floats, and [a / b] on two integers with [b] not zero. *)
Variable flotante : Type.
Variable division : Z -> Z -> flotante.

(** The dictionary returned by [calcular_metricas]; its keys carry the
    prefix [m_]. *)
Record Metricas : Type := {
  m_bits_originales : Z;
  m_bits_codificados : Z;
  m_tasa_expansion : flotante;
  m_tiempo_codificacion : tiempo;
  m_num_bloques : Z
}.

Definition calcular_metricas (datos_originales : list ascii)
  (datos_codificados : DatosCodificados tiempo)
  : fallo_metricas + Metricas :=
  let total_valores :=
    total_de_valores (bloques_codificados datos_codificados) in
  match maximos_interiores (bloques_codificados datos_codificados) with
  | None => inl MaxDeSecuenciaVacia
  | Some maximos =>
      match max_de maximos with
      | None => inl MaxDeSecuenciaVacia
      | Some bits_por_valor =>
          let bits_codificados := total_valores * bits_por_valor in
          let largo := Z.of_nat (length datos_originales) in
          if largo =? 0 then inl DivisionEntreCero
          else
            let tasa_expansion := division bits_codificados largo in
            inr {| m_bits_originales := largo;
                   m_bits_codificados := bits_codificados;
                   m_tasa_expansion := tasa_expansion;
                   m_tiempo_codificacion :=
                     tiempo_codificacion datos_codificados;
                   m_num_bloques := num_bloques datos_codificados |}
      end
  end.

End Metricas.

Arguments m_bits_originales {tiempo flotante} _.
Arguments m_bits_codificados {tiempo flotante} _.
Arguments m_tasa_expansion {tiempo flotante} _.
Arguments m_tiempo_codificacion {tiempo flotante} _.
Arguments m_num_bloques {tiempo flotante} _.
Arguments calcular_metricas {tiempo flotante} division
  datos_originales datos_codificados.

(** ** Canonical digit sequences *)

(** The digit sequences the block encoders return: not empty, every digit
    from zero to below the power, and the most significant digit not zero
    unless the sequence is the single zero. *)
Definition digitos_canonicos (pot : Z) (l : list Z) : Prop :=
  l <> [] /\ Forall (fun d => 0 <= d < pot) l
  /\ (l = [0] \/ last l 0 <> 0).

(** * Properties *)

(** ** Configuration validator *)

Lemma en_lista_In (x : Z) (l : list Z) : en_lista x l = true <-> In x l.
Proof.
  unfold en_lista. rewrite existsb_exists. split.
  - intros [y [Hy Heq]]. apply Z.eqb_eq in Heq. now subst.
  - intros H. exists x. split; [assumption | apply Z.eqb_refl].
Qed.

Lemma en_lista_no_In (x : Z) (l : list Z) : en_lista x l = false <-> ~ In x l.
Proof.
  rewrite <- en_lista_In. destruct (en_lista x l); split; congruence.
Qed.

Lemma potencia_legal_dec (b p : Z) :
  potencia_legal b p <->
  (b = 2 /\ en_lista p POTENCIAS_BASE_2 = true)
  \/ (b = 5 /\ en_lista p POTENCIAS_BASE_5 = true).
Proof.
  unfold potencia_legal. now rewrite !en_lista_In.
Qed.

Lemma tamano_legal_dec (n : Z) :
  tamano_legal n <-> (BITS_MINIMO <=? n) && (n <=? BITS_MAXIMO) = true.
Proof.
  unfold tamano_legal, BITS_MINIMO, BITS_MAXIMO.
  rewrite andb_true_iff, !Z.leb_le. tauto.
Qed.

Ltac casos_init b p n :=
  unfold init, si_lanza, bind;
  change (en_lista b [2; 5]) with ((b =? 2) || ((b =? 5) || false));
  destruct (Z.eqb_spec b 2); destruct (Z.eqb_spec b 5);
  destruct (en_lista p POTENCIAS_BASE_2);
  destruct (en_lista p POTENCIAS_BASE_5);
  destruct ((BITS_MINIMO <=? n) && (n <=? BITS_MAXIMO));
  cbn [negb orb andb].

Lemma init_ok (b p n : Z) (self : Codificador) :
  init b p n = Ok self <->
  potencia_legal b p /\ tamano_legal n /\
  self = {| base := b; potencia := p; bits_por_bloque := n |}.
Proof.
  rewrite potencia_legal_dec, tamano_legal_dec.
  casos_init b p n; split;
    try (intros [[[? ?]|[? ?]] [? ?]]); try intros ?;
    try congruence; try lia;
    try (injection H as <-); auto 8.
Qed.

Lemma init_motivo_base (b p n : Z) :
  init b p n = Raise (ConfiguracionInvalidaError BaseNoPermitida) <->
  b <> 2 /\ b <> 5.
Proof.
  casos_init b p n; split; try intros [? ?]; try intros ?;
    try congruence; try lia; auto.
Qed.

Lemma init_motivo_potencia (b p n : Z) :
  init b p n = Raise (ConfiguracionInvalidaError PotenciaNoPermitida) <->
  (b = 2 /\ ~ In p [2; 4; 16; 256; 65536; 4294967296; 18446744073709551616])
  \/ (b = 5 /\ ~ In p [5; 25; 125; 625]).
Proof.
  change [2; 4; 16; 256; 65536; 4294967296; 18446744073709551616]
    with POTENCIAS_BASE_2.
  change [5; 25; 125; 625] with POTENCIAS_BASE_5.
  rewrite <- !en_lista_no_In.
  casos_init b p n; split; try intros [[? ?]|[? ?]]; try intros ?;
    try congruence; try lia; auto.
Qed.

Lemma init_motivo_tamano (b p n : Z) :
  init b p n = Raise (ConfiguracionInvalidaError TamanoFueraDeRango) <->
  potencia_legal b p /\ ~ tamano_legal n.
Proof.
  rewrite potencia_legal_dec, tamano_legal_dec.
  casos_init b p n; split; try intros [[[? ?]|[? ?]] ?]; try intros ?;
    try congruence; try lia; auto 8.
Qed.

(** C5: the constructor raises [ConfiguracionInvalidaError] exactly on the
    triples outside the legal space (base not 2 or 5, power outside the
    seven powers of two or the four powers of five of the chosen base,
    block size outside 10..1000), each of the three reasons is reported by
    its own check, a legal triple yields the codec holding it, and the four
    triples named by the specification are rejected with the base, power,
    size and size reasons respectively. *)
Theorem C5_init_rechaza_exactamente (b p n : Z) :
  ((exists m, init b p n = Raise (ConfiguracionInvalidaError m)) <->
   (b <> 2 /\ b <> 5)
   \/ (b = 2 /\
       ~ In p [2; 4; 16; 256; 65536; 4294967296; 18446744073709551616])
   \/ (b = 5 /\ ~ In p [5; 25; 125; 625])
   \/ ~ (10 <= n <= 1000))
  /\ (init b p n = Raise (ConfiguracionInvalidaError BaseNoPermitida) <->
      b <> 2 /\ b <> 5)
  /\ (init b p n = Raise (ConfiguracionInvalidaError PotenciaNoPermitida) <->
      (b = 2 /\
       ~ In p [2; 4; 16; 256; 65536; 4294967296; 18446744073709551616])
      \/ (b = 5 /\ ~ In p [5; 25; 125; 625]))
  /\ (init b p n = Raise (ConfiguracionInvalidaError TamanoFueraDeRango) <->
      potencia_legal b p /\ ~ (10 <= n <= 1000))
  /\ (init b p n = Ok {| base := b; potencia := p; bits_por_bloque := n |} <->
      potencia_legal b p /\ 10 <= n <= 1000)
  /\ init 10 100 40 = Raise (ConfiguracionInvalidaError BaseNoPermitida)
  /\ init 2 32 40 = Raise (ConfiguracionInvalidaError PotenciaNoPermitida)
  /\ init 5 25 5 = Raise (ConfiguracionInvalidaError TamanoFueraDeRango)
  /\ init 5 25 1500 = Raise (ConfiguracionInvalidaError TamanoFueraDeRango).
Proof.
  split; [|split; [apply init_motivo_base|
           split; [apply init_motivo_potencia|
           split; [apply init_motivo_tamano|
           split; [|repeat split]]]]].
  - split.
    + intros [[] H].
      * left. apply init_motivo_base in H. exact H.
      * right. apply init_motivo_potencia in H. tauto.
      * right; right; right. apply init_motivo_tamano in H.
        unfold tamano_legal in H. tauto.
    + intros H.
      destruct (init b p n) as [self|e|] eqn:E.
      * apply init_ok in E. unfold potencia_legal, tamano_legal in E.
        exfalso. destruct E as [[[-> Hp]|[-> Hp]] [Hn _]];
          destruct H as [[? ?]|[[? ?]|[[? ?]|?]]]; try lia; tauto.
      * revert E. casos_init b p n; intros E; inversion E; eauto.
      * revert E. casos_init b p n; intros E; inversion E.
  - rewrite init_ok. fold (tamano_legal n). tauto.
Qed.

Lemma valido_inv (self : Codificador) :
  valido self ->
  potencia_legal (base self) (potencia self)
  /\ tamano_legal (bits_por_bloque self).
Proof.
  unfold valido. rewrite init_ok. tauto.
Qed.

Lemma potencia_base2 (p : Z) :
  In p [2; 4; 16; 256; 65536; 4294967296; 18446744073709551616] ->
  1 <= Py.bit_length p - 1 /\ p = 2 ^ (Py.bit_length p - 1).
Proof.
  intros H.
  repeat (destruct H as [<-|H];
          [split; [vm_compute; congruence | reflexivity]|]).
  destruct H.
Qed.

Lemma potencia_base5 (p : Z) : In p [5; 25; 125; 625] -> 5 <= p.
Proof.
  intros H. repeat (destruct H as [<-|H]; [lia|]). destruct H.
Qed.

Lemma valido_potencia_pos (self : Codificador) :
  valido self -> 2 <= potencia self.
Proof.
  intros H. apply valido_inv in H. destruct H as [[[_ H]|[_ H]] _].
  - apply potencia_base2 in H. destruct H as [Hw ->].
    change 2 with (2 ^ 1) at 1. apply Z.pow_le_mono_r; lia.
  - apply potencia_base5 in H. lia.
Qed.

(** ** Reading and writing binary numerals *)

Module Numeral.

Import Py.

Lemma es_bit_inv (c : ascii) :
  Py.es_bit c = true -> c = Py.cero \/ c = Py.uno.
Proof.
  unfold Py.es_bit. rewrite orb_true_iff, !Ascii.eqb_eq. tauto.
Qed.

Lemma int2_valor (s : list ascii) :
  s <> [] -> Py.es_binario s = true -> Py.int2 s = Ok (valor s).
Proof.
  intros Hne Hb. unfold Py.int2. destruct s as [|c r]; [congruence|].
  now rewrite Hb.
Qed.

Lemma valor_desde (s : list ascii) (a : Z) :
  fold_left (fun acc c => 2 * acc + Py.valor_bit c) s a
  = a * 2 ^ Z.of_nat (length s) + valor s.
Proof.
  unfold valor. revert a. induction s as [|c r IH]; intros a.
  - cbn. lia.
  - cbn [fold_left length]. rewrite IH, (IH (2 * 0 + _)).
    rewrite Nat2Z.inj_succ, Z.pow_succ_r by lia. lia.
Qed.

Lemma valor_cons (c : ascii) (r : list ascii) :
  valor (c :: r) = Py.valor_bit c * 2 ^ Z.of_nat (length r) + valor r.
Proof.
  unfold valor at 1. cbn [fold_left]. rewrite valor_desde. lia.
Qed.

Lemma valor_cota (s : list ascii) : 0 <= valor s < 2 ^ Z.of_nat (length s).
Proof.
  induction s as [|c r IH].
  - cbn. lia.
  - rewrite valor_cons. cbn [length].
    rewrite Nat2Z.inj_succ, Z.pow_succ_r by lia.
    unfold Py.valor_bit. destruct (Ascii.eqb c Py.uno); lia.
Qed.

Lemma valor_ceros (n : nat) : valor (repeat Py.cero n) = 0.
Proof.
  induction n as [|n IH]; [reflexivity|].
  cbn [repeat]. rewrite valor_cons, IH. reflexivity.
Qed.

Lemma valor_pos (r : list ascii) (p : positive) :
  fold_left (fun acc c => 2 * acc + Py.valor_bit c) r (Zpos p)
  = Zpos (fold_left doblar r p).
Proof.
  revert p. induction r as [|c r IH]; intros p; [reflexivity|].
  cbn [fold_left]. unfold Py.valor_bit, doblar at 2.
  destruct (Ascii.eqb c Py.uno); apply IH.
Qed.

Lemma digitos_doblar (r : list ascii) (p : positive) (acc : list ascii) :
  Py.es_binario r = true ->
  Py.digitos_pos (fold_left doblar r p) acc = Py.digitos_pos p (r ++ acc).
Proof.
  revert p. induction r as [|c r IH]; intros p Hb; [reflexivity|].
  cbn [Py.es_binario forallb] in Hb. apply andb_true_iff in Hb.
  destruct Hb as [Hc Hr]. cbn [fold_left]. rewrite IH by exact Hr.
  destruct (es_bit_inv c Hc) as [-> | ->]; reflexivity.
Qed.

(** A bit string is all zeros, or some zeros followed by the numeral
    that [bin] prints for its value. *)
Lemma forma_binaria (s : list ascii) :
  Py.es_binario s = true ->
  (valor s = 0 /\ s = repeat Py.cero (length s))
  \/ (exists (k : nat) (t : list ascii) (p : positive),
        s = repeat Py.cero k ++ Py.uno :: t
        /\ valor s = Zpos p
        /\ Py.digitos_pos p [] = Py.uno :: t).
Proof.
  induction s as [|c r IH]; intros Hb.
  - left. split; reflexivity.
  - cbn [Py.es_binario forallb] in Hb. apply andb_true_iff in Hb.
    destruct Hb as [Hc Hr].
    destruct (es_bit_inv c Hc) as [-> | ->].
    + rewrite valor_cons. change (Py.valor_bit Py.cero) with 0.
      destruct (IH Hr) as [[Hv Hs] | (k & t & p & Hs & Hv & Hd)].
      * left. split; [lia|]. cbn [length repeat]. now rewrite <- Hs.
      * right. exists (S k), t, p. repeat split; [|lia|assumption].
        cbn [repeat app]. now rewrite <- Hs.
    + right. exists O, r, (fold_left doblar r xH). repeat split.
      * unfold valor. cbn [fold_left]. change (2 * 0 + Py.valor_bit Py.uno)
          with (Zpos xH). apply valor_pos.
      * rewrite digitos_doblar by exact Hr. cbn. now rewrite app_nil_r.
Qed.

End Numeral.

(** ** Loops over digit sequences *)

Lemma bind_ok {A B : Type} (r : resultado A) (k : A -> resultado B) (b : B) :
  bind r k = Ok b -> exists a, r = Ok a /\ k a = Ok b.
Proof.
  destruct r as [a| |]; cbn; intros H; try discriminate. now exists a.
Qed.

Lemma enumerate_cons {A : Type} (k : nat) (x : A) (l : list A) :
  enumerate k (x :: l) = (Z.of_nat k, x) :: enumerate (S k) l.
Proof. reflexivity. Qed.

Lemma suma_cons (termino : Z -> Z -> Z) (k : nat) (d : Z) (l : list Z) :
  suma termino k (d :: l) = termino (Z.of_nat k) d + suma termino (S k) l.
Proof. reflexivity. Qed.

Lemma bit_length_cota (v : Z) : 0 <= v -> v < 2 ^ Py.bit_length v.
Proof.
  intros Hv. unfold Py.bit_length. destruct (Z.eqb_spec v 0) as [->|Hne].
  - reflexivity.
  - rewrite Z.abs_eq by exact Hv.
    apply (Z.log2_spec v). lia.
Qed.

Lemma bit_length_nonneg (v : Z) : 0 <= Py.bit_length v.
Proof.
  unfold Py.bit_length. destruct (v =? 0); [lia|].
  pose proof (Z.log2_nonneg (Z.abs v)). lia.
Qed.

Lemma vueltas_cota (v : Z) : 0 <= v -> v < 2 ^ Z.of_nat (vueltas v).
Proof.
  intros Hv. unfold vueltas.
  rewrite Z2Nat.id by apply bit_length_nonneg. now apply bit_length_cota.
Qed.

Lemma mitad_cota (v d : Z) (fuel : nat) :
  2 <= d -> 0 < v < 2 ^ Z.of_nat (S fuel) -> 0 <= v / d < 2 ^ Z.of_nat fuel.
Proof.
  intros Hd Hv. rewrite Nat2Z.inj_succ, Z.pow_succ_r in Hv by lia.
  split.
  - apply Z.div_pos; lia.
  - apply Z.div_lt_upper_bound; [lia|].
    assert (0 < 2 ^ Z.of_nat fuel) by (apply Z.pow_pos_nonneg; lia). nia.
Qed.

Lemma land_cota (a b : Z) : 0 <= a -> 0 <= b -> 0 <= Z.land a b <= b.
Proof.
  intros Ha Hb. split; [apply Z.land_nonneg; now left|].
  pose proof (Z.add_lor_land (Z.ldiff b a) (Z.land b a)) as H.
  rewrite Z.lor_ldiff_and in H.
  rewrite (Z.land_comm (Z.ldiff b a)), <- Z.land_assoc in H.
  rewrite (Z.land_comm a), Z.land_ldiff, Z.land_0_r in H.
  assert (0 <= Z.ldiff b a) by (apply Z.ldiff_nonneg; now left).
  rewrite (Z.land_comm a b). lia.
Qed.

Module Ventanas.

Lemma ventanas_acc (fuel : nat) (w m v : Z) (acc : list Z) :
  bucle_ventanas fuel w m v acc
  = (l <- bucle_ventanas fuel w m v [] ;; Ok (acc ++ l)).
Proof.
  revert v acc. induction fuel as [|fuel IH]; intros v acc; cbn.
  - destruct (v >? 0); cbn; [reflexivity | now rewrite app_nil_r].
  - destruct (v >? 0); cbn; [|now rewrite app_nil_r].
    unfold desplazar_der. destruct (w <? 0); cbn; [reflexivity|].
    rewrite IH, (IH _ [_]).
    destruct (bucle_ventanas fuel w m (Z.shiftr v w) []); cbn;
      try reflexivity.
    now rewrite <- app_assoc.
Qed.

(** One turn of the loop, with the list built from the front. *)
Lemma ventanas_paso (fuel : nat) (w m v : Z) :
  0 < v -> 0 <= w ->
  bucle_ventanas (S fuel) w m v []
  = (l <- bucle_ventanas fuel w m (Z.shiftr v w) [] ;;
     Ok (Z.land v m :: l)).
Proof.
  intros Hv Hw. cbn [bucle_ventanas].
  destruct (Z.gtb_spec v 0); [|lia].
  unfold desplazar_der. destruct (Z.ltb_spec w 0); [lia|].
  cbn [bind app]. apply ventanas_acc.
Qed.

Lemma ventanas_fin (fuel : nat) (w m v : Z) (acc : list Z) :
  v <= 0 -> bucle_ventanas fuel w m v acc = Ok acc.
Proof.
  intros Hv. destruct fuel; cbn; destruct (Z.gtb_spec v 0); (lia || reflexivity).
Qed.

(** With a window of at least one bit the loop leaves, and every window
    it appends lies between zero and the mask. *)
Lemma ventanas_termina (fuel : nat) (w m v : Z) :
  1 <= w -> 0 <= m -> 0 <= v < 2 ^ Z.of_nat fuel ->
  exists l, bucle_ventanas fuel w m v [] = Ok l
            /\ Forall (fun d => 0 <= d <= m) l
            /\ (l = [] <-> v = 0).
Proof.
  intros Hw Hm. revert v. induction fuel as [|fuel IH]; intros v Hv.
  - cbn in Hv. assert (v = 0) as -> by lia.
    exists []. cbn. split; [reflexivity|]. split; [constructor|tauto].
  - destruct (Z.eq_dec v 0) as [->|Hne].
    + exists []. cbn. split; [reflexivity|]. split; [constructor|tauto].
    + rewrite ventanas_paso by lia.
      destruct (IH (Z.shiftr v w)) as (l & -> & Hl & _).
      { rewrite Z.shiftr_div_pow2 by lia. apply mitad_cota; [|lia].
        change 2 with (2 ^ 1) at 1. apply Z.pow_le_mono_r; lia. }
      exists (Z.land v m :: l). cbn. split; [reflexivity|].
      split; [|split; [discriminate | lia]].
      constructor; [apply land_cota; lia | exact Hl].
Qed.

(** With the mask of an exact power of two the windows are the digits of
    the value in that base. *)
Lemma ventanas_digitos (fuel : nat) (w v : Z) (l : list Z) :
  1 <= w -> 0 <= v ->
  bucle_ventanas fuel w (2 ^ w - 1) v [] = Ok l ->
  Forall (fun d => 0 <= d < 2 ^ w) l
  /\ (forall k, suma (fun i d => Z.shiftl d (i * w)) k l
                = v * 2 ^ (Z.of_nat k * w))
  /\ (forall i, (i < length l)%nat ->
        nth i l 0 = Z.land (Z.shiftr v (Z.of_nat i * w)) (2 ^ w - 1)).
Proof.
  intros Hw. revert v l. induction fuel as [|fuel IH]; intros v l Hv H.
  - cbn in H. destruct (Z.gtb_spec v 0); [discriminate|].
    injection H as <-. assert (v = 0) as -> by lia.
    split; [constructor|]. split; [reflexivity | cbn; lia].
  - destruct (Z.eq_dec v 0) as [->|Hne].
    + cbn in H. injection H as <-.
      split; [constructor|]. split; [reflexivity | cbn; lia].
    + rewrite ventanas_paso in H by lia.
      apply bind_ok in H. destruct H as (r & Hr & H). injection H as <-.
      assert (Hs : 0 <= Z.shiftr v w) by (apply Z.shiftr_nonneg; lia).
      destruct (IH _ _ Hs Hr) as (Hran & Hsum & Hnth).
      assert (Hmask : Z.land v (2 ^ w - 1) = v mod 2 ^ w).
      { rewrite <- Z.land_ones by lia. now rewrite Z.ones_equiv. }
      assert (Hp : 0 < 2 ^ w) by (apply Z.pow_pos_nonneg; lia).
      split; [|split].
      * constructor; [|exact Hran]. rewrite Hmask.
        apply Z.mod_pos_bound; lia.
      * intros k. rewrite suma_cons, Hsum, Hmask.
        rewrite Z.shiftl_mul_pow2, Z.shiftr_div_pow2 by lia.
        rewrite Nat2Z.inj_succ.
        replace (Z.succ (Z.of_nat k) * w) with (w + Z.of_nat k * w) by lia.
        rewrite Z.pow_add_r by lia.
        pose proof (Z.div_mod v (2 ^ w) ltac:(lia)) as Hdm.
        rewrite Hdm at 3. ring.
      * intros [|i] Hi.
        -- cbn [nth]. now rewrite Z.mul_0_l, Z.shiftr_0_r.
        -- cbn [nth]. cbn [length] in Hi.
           rewrite Hnth by lia. rewrite Z.shiftr_shiftr by lia.
           do 2 f_equal. lia.
Qed.

End Ventanas.

Lemma lor_desplazado (acc d n : Z) :
  0 <= n -> 0 <= acc < 2 ^ n ->
  Z.lor acc (Z.shiftl d n) = acc + Z.shiftl d n.
Proof.
  intros Hn Hacc. rewrite <- Z.add_lor_land.
  assert (Z.land acc (Z.shiftl d n) = 0) as ->; [|lia].
  apply Z.bits_inj'. intros i Hi.
  rewrite Z.land_spec, Z.bits_0.
  destruct (Z.lt_ge_cases i n) as [Hlt|Hge].
  - rewrite Z.shiftl_spec_low by exact Hlt. apply andb_false_r.
  - rewrite <- (Z.mod_small acc (2 ^ n)) by exact Hacc.
    rewrite Z.mod_pow2_bits_high by lia. reflexivity.
Qed.

Lemma reconstruir_base2_desde (w : Z) (valores : list Z) (k : nat) (acc : Z) :
  0 <= w -> 0 <= acc < 2 ^ (Z.of_nat k * w) ->
  Forall (fun d => 0 <= d < 2 ^ w) valores ->
  para_cada
    (fun valor_reconstruido '(idx, ventana) =>
       d <- desplazar_izq ventana (idx * w) ;;
       Ok (Z.lor valor_reconstruido d))
    (enumerate k valores) acc
  = Ok (acc + suma (fun i d => Z.shiftl d (i * w)) k valores).
Proof.
  intros Hw. revert k acc.
  induction valores as [|d l IH]; intros k acc Hacc Hl.
  - cbn. now rewrite Z.add_0_r.
  - inversion Hl as [|? ? Hd Hl']; subst.
    rewrite enumerate_cons, suma_cons. cbn [para_cada].
    unfold desplazar_izq.
    destruct (Z.ltb_spec (Z.of_nat k * w) 0) as [Hneg|_]; [nia|].
    cbn [bind]. rewrite lor_desplazado by (try exact Hacc; nia).
    rewrite IH; [f_equal; lia| |exact Hl'].
    rewrite Z.shiftl_mul_pow2 by nia. rewrite Nat2Z.inj_succ.
    replace (Z.succ (Z.of_nat k) * w) with (Z.of_nat k * w + w) by lia.
    rewrite Z.pow_add_r by nia.
    assert (0 < 2 ^ (Z.of_nat k * w)) by (apply Z.pow_pos_nonneg; nia).
    nia.
Qed.

(** On windows that fit their width, the [|=] of the decoder adds. *)
Lemma reconstruir_base2_suma (w : Z) (valores : list Z) :
  0 <= w -> Forall (fun d => 0 <= d < 2 ^ w) valores ->
  reconstruir_base2 w valores = Ok (suma_ventanas w valores).
Proof.
  intros Hw Hl. unfold reconstruir_base2, suma_ventanas.
  rewrite (reconstruir_base2_desde w valores 0 0 Hw); [reflexivity| |exact Hl].
  cbn. lia.
Qed.

Module Residuos.

Lemma residuos_acc (fuel : nat) (p v : Z) (acc : list Z) :
  bucle_residuos fuel p v acc
  = (l <- bucle_residuos fuel p v [] ;; Ok (acc ++ l)).
Proof.
  revert v acc. induction fuel as [|fuel IH]; intros v acc; cbn.
  - destruct (v >? 0); cbn; [reflexivity | now rewrite app_nil_r].
  - destruct (v >? 0); cbn; [|now rewrite app_nil_r].
    destruct (p =? 0); cbn; [reflexivity|].
    rewrite IH, (IH _ [_]).
    destruct (bucle_residuos fuel p (v / p) []); cbn; try reflexivity.
    now rewrite <- app_assoc.
Qed.

Lemma residuos_paso (fuel : nat) (p v : Z) :
  0 < v -> p <> 0 ->
  bucle_residuos (S fuel) p v []
  = (l <- bucle_residuos fuel p (v / p) [] ;; Ok (v mod p :: l)).
Proof.
  intros Hv Hp. cbn [bucle_residuos].
  destruct (Z.gtb_spec v 0); [|lia].
  destruct (Z.eqb_spec p 0); [lia|].
  cbn [app]. apply residuos_acc.
Qed.

(** With a divisor of at least two the loop leaves, and its residues are
    the digits of the value in that base. *)
Lemma residuos_digitos (fuel : nat) (p v : Z) :
  2 <= p -> 0 <= v < 2 ^ Z.of_nat fuel ->
  exists l, bucle_residuos fuel p v [] = Ok l
            /\ Forall (fun d => 0 <= d < p) l
            /\ (l = [] <-> v = 0)
            /\ (forall k, suma (fun i d => d * p ^ i) k l
                          = v * p ^ Z.of_nat k)
            /\ (forall i, (i < length l)%nat ->
                  nth i l 0 = (v / p ^ Z.of_nat i) mod p).
Proof.
  intros Hp. revert v. induction fuel as [|fuel IH]; intros v Hv.
  - cbn in Hv. assert (v = 0) as -> by lia.
    exists []. cbn. repeat split; try constructor; try tauto; lia.
  - destruct (Z.eq_dec v 0) as [->|Hne].
    + exists []. cbn. repeat split; try constructor; try tauto; lia.
    + rewrite residuos_paso by lia.
      destruct (IH (v / p)) as (l & -> & Hran & _ & Hsum & Hnth).
      { apply mitad_cota; lia. }
      exists (v mod p :: l). cbn [bind]. split; [reflexivity|].
      split; [|split; [|split]].
      * constructor; [apply Z.mod_pos_bound; lia | exact Hran].
      * split; [discriminate | lia].
      * intros k. rewrite suma_cons, Hsum.
        rewrite Nat2Z.inj_succ, Z.pow_succ_r by lia.
        pose proof (Z.div_mod v p ltac:(lia)) as Hdm.
        rewrite Hdm at 3. ring.
      * intros [|i] Hi.
        -- cbn [nth]. now rewrite Z.pow_0_r, Z.div_1_r.
        -- cbn [nth]. cbn [length] in Hi. rewrite Hnth by lia.
           rewrite Nat2Z.inj_succ, Z.pow_succ_r by lia.
           rewrite Z.div_div by (try apply Z.pow_pos_nonneg; lia).
           reflexivity.
Qed.

End Residuos.

Lemma reconstruir_base5_desde (p : Z) (residuos : list Z) (k : nat) (acc : Z) :
  fold_left
    (fun valor_reconstruido '(idx, residuo) =>
       let contribucion := residuo * p ^ idx in
       valor_reconstruido + contribucion)
    (enumerate k residuos) acc
  = acc + suma (fun i d => d * p ^ i) k residuos.
Proof.
  revert k acc. induction residuos as [|d l IH]; intros k acc.
  - cbn. now rewrite Z.add_0_r.
  - rewrite enumerate_cons, suma_cons. cbn [fold_left].
    rewrite IH. lia.
Qed.

(** The decoder of base 5 computes the positional sum. *)
Lemma reconstruir_base5_suma (p : Z) (residuos : list Z) :
  reconstruir_base5 p residuos = suma_residuos p residuos.
Proof.
  unfold reconstruir_base5, suma_residuos.
  now rewrite reconstruir_base5_desde.
Qed.

(** ** Rendering a block *)

Lemma ceros_largo (n : nat) : Py.ceros (Z.of_nat n) = repeat Py.cero n.
Proof. unfold Py.ceros. now rewrite Nat2Z.id. Qed.

(** Writing the value of a bit string in as many digits as the string has
    gives the string back. *)
Lemma a_binario_valor (s : list ascii) :
  Py.es_binario s = true ->
  a_binario (Z.of_nat (length s)) (Py.valor s) = s.
Proof.
  intros Hb. unfold a_binario.
  destruct (Numeral.forma_binaria s Hb)
    as [[Hv Hs] | (k & t & p & Hs & Hv & Hd)].
  - rewrite Hv. cbn [Z.eqb]. now rewrite ceros_largo, <- Hs.
  - rewrite Hv. cbn [Z.eqb Py.bin Py.desde skipn app]. rewrite Hd.
    unfold Py.zfill. cbn [Ascii.eqb Py.uno Bool.eqb orb andb].
    rewrite Hs at 1. rewrite length_app, repeat_length.
    replace (Z.of_nat (k + length (Py.uno :: t))
             - Z.of_nat (length (Py.uno :: t))) with (Z.of_nat k) by lia.
    now rewrite ceros_largo, Hs.
Qed.

Lemma a_binario_largo (s : list ascii) (n : Z) :
  Py.es_binario s = true -> Z.of_nat (length s) = n ->
  a_binario n (Py.valor s) = s.
Proof. intros Hb <-. now apply a_binario_valor. Qed.

Lemma ventanas_ultimo (fuel : nat) (w v : Z) (l : list Z) :
  1 <= w -> 0 <= v ->
  bucle_ventanas fuel w (2 ^ w - 1) v [] = Ok l ->
  (l = [] <-> v = 0) /\ (0 < v -> last l 0 <> 0).
Proof.
  intros Hw. revert v l. induction fuel as [|fuel IH]; intros v l Hv H.
  - cbn in H. destruct (Z.gtb_spec v 0); [discriminate|].
    injection H as <-. split; [split; [lia | reflexivity] | lia].
  - destruct (Z.eq_dec v 0) as [->|Hne].
    + cbn in H. injection H as <-. split; [tauto | lia].
    + rewrite Ventanas.ventanas_paso in H by lia.
      apply bind_ok in H. destruct H as (r & Hr & H). injection H as <-.
      assert (Hs : 0 <= Z.shiftr v w) by (apply Z.shiftr_nonneg; lia).
      destruct (IH _ _ Hs Hr) as (Hnil & Hlast).
      split; [split; [discriminate | lia]|]. intros _.
      destruct r as [|d r].
      * cbn [last]. assert (Hz : Z.shiftr v w = 0) by now apply Hnil.
        rewrite Z.shiftr_div_pow2 in Hz by lia.
        replace (2 ^ w - 1) with (Z.ones w) by (rewrite Z.ones_equiv; lia).
        rewrite Z.land_ones by lia.
        pose proof (Z.div_mod v (2 ^ w)) as Hdm.
        assert (0 < 2 ^ w) by (apply Z.pow_pos_nonneg; lia). nia.
      * change (last (Z.land v (2 ^ w - 1) :: d :: r) 0) with (last (d :: r) 0).
        apply Hlast.
        destruct (Z.eq_dec (Z.shiftr v w) 0) as [Hz|Hz]; [|lia].
        apply Hnil in Hz. discriminate.
Qed.

Lemma residuos_ultimo (fuel : nat) (p v : Z) (l : list Z) :
  2 <= p -> 0 <= v ->
  bucle_residuos fuel p v [] = Ok l ->
  0 < v -> last l 0 <> 0.
Proof.
  intros Hp. revert v l. induction fuel as [|fuel IH]; intros v l Hv H Hpos.
  - cbn in H. destruct (Z.gtb_spec v 0); [discriminate | lia].
  - rewrite Residuos.residuos_paso in H by lia.
    apply bind_ok in H. destruct H as (r & Hr & H). injection H as <-.
    assert (Hs : 0 <= v / p) by (apply Z.div_pos; lia).
    destruct r as [|d r].
    + cbn [last]. destruct (Z.eq_dec (v / p) 0) as [Hz|Hz].
      * pose proof (Z.div_mod v p). nia.
      * destruct fuel; cbn in Hr; destruct (Z.gtb_spec (v / p) 0);
          try discriminate; try lia.
        destruct (p =? 0); [discriminate|].
        rewrite Residuos.residuos_acc in Hr. apply bind_ok in Hr.
        destruct Hr as (x & _ & Hx). discriminate.
    + change (last (v mod p :: d :: r) 0) with (last (d :: r) 0).
      apply (IH _ _ Hs Hr).
      destruct (Z.eq_dec (v / p) 0) as [Hz|Hz]; [|lia].
      rewrite Hz in Hr. destruct fuel; cbn in Hr; discriminate.
Qed.

(** ** Block codecs *)

Lemma bit_length_log2 (p : Z) : 0 < p -> Py.bit_length p - 1 = Z.log2 p.
Proof.
  intros Hp. unfold Py.bit_length.
  destruct (Z.eqb_spec p 0); [lia|]. rewrite Z.abs_eq by lia. lia.
Qed.

Lemma valido_base2 (self : Codificador) :
  valido self -> base self = 2 ->
  1 <= Z.log2 (potencia self)
  /\ potencia self = 2 ^ Z.log2 (potencia self)
  /\ Py.bit_length (potencia self) - 1 = Z.log2 (potencia self).
Proof.
  intros Hv Hb. pose proof (valido_potencia_pos self Hv) as Hpos.
  apply valido_inv in Hv. destruct Hv as [[[_ H]|[H5 _]] _]; [|lia].
  apply potencia_base2 in H. rewrite bit_length_log2 in H by lia.
  destruct H as [H1 H2]. repeat split; try assumption.
  apply bit_length_log2. lia.
Qed.

Lemma valido_tamano (self : Codificador) :
  valido self -> 10 <= bits_por_bloque self <= 1000.
Proof. intros Hv. now apply valido_inv in Hv. Qed.

Lemma bloque_no_vacio (self : Codificador) (bloque : list ascii) :
  valido self -> Z.of_nat (length bloque) = bits_por_bloque self ->
  bloque <> [].
Proof.
  intros Hv Hl ->. apply valido_tamano in Hv. cbn in Hl. lia.
Qed.

Lemma canonico_no_vacio (l : list Z) : canonico l <> [].
Proof. destruct l; discriminate. Qed.

Lemma canonico_suma (termino : Z -> Z -> Z) (k : nat) (l : list Z) :
  (forall i, termino i 0 = 0) ->
  suma termino k (canonico l) = suma termino k l.
Proof.
  intros H. destruct l; [|reflexivity]. cbn. rewrite H. reflexivity.
Qed.

Lemma canonico_Forall (P : Z -> Prop) (l : list Z) :
  P 0 -> Forall P l -> Forall P (canonico l).
Proof. intros H0 Hl. destruct l; [repeat constructor; exact H0 | exact Hl]. Qed.

(** What the base-2 encoder returns on a block of a valid codec. *)
Lemma codificar_bloque_base2_ok (self : Codificador) (bloque : list ascii) :
  valido self -> base self = 2 ->
  Py.es_binario bloque = true -> bloque <> [] ->
  exists l,
    bucle_ventanas (vueltas (Py.valor bloque))
      (Z.log2 (potencia self)) (2 ^ Z.log2 (potencia self) - 1)
      (Py.valor bloque) [] = Ok l
    /\ codificar_bloque_base2 self bloque = Ok (canonico l).
Proof.
  intros Hv Hb Hbin Hne.
  destruct (valido_base2 self Hv Hb) as (Hw & Hp & Hbl).
  pose proof (Numeral.valor_cota bloque) as Hc.
  destruct (Ventanas.ventanas_termina (vueltas (Py.valor bloque))
              (Z.log2 (potencia self)) (2 ^ Z.log2 (potencia self) - 1)
              (Py.valor bloque)) as (l & Hl & _).
  - exact Hw.
  - assert (0 < 2 ^ Z.log2 (potencia self))
      by (apply Z.pow_pos_nonneg; lia). lia.
  - split; [lia | apply vueltas_cota; lia].
  - exists l. split; [exact Hl|].
    unfold codificar_bloque_base2.
    rewrite Numeral.int2_valor by assumption. cbn [bind].
    rewrite Hbl. rewrite Hp at 2. rewrite Hl. reflexivity.
Qed.

(** The base-2 block codec on one block of a valid base-2 codec: the
    encoder returns the canonical form of what its loop leaves, and the
    decoder turns that back into the block. *)
Lemma bloque_base2_correcto (self : Codificador) (bloque : list ascii) :
  valido self -> base self = 2 ->
  Py.es_binario bloque = true ->
  Z.of_nat (length bloque) = bits_por_bloque self ->
  let w := Z.log2 (potencia self) in
  let v := Py.valor bloque in
  exists l,
    bucle_ventanas (vueltas v) w (2 ^ w - 1) v [] = Ok l
    /\ codificar_bloque_base2 self bloque = Ok (canonico l)
    /\ Forall (fun d => 0 <= d < 2 ^ w) (canonico l)
    /\ suma_ventanas w (canonico l) = v
    /\ decodificar_bloque_base2 self (canonico l) = Ok bloque.
Proof.
  intros Hv Hb Hbin Hlen w v.
  pose proof (bloque_no_vacio self bloque Hv Hlen) as Hne.
  destruct (valido_base2 self Hv Hb) as (Hw & Hp & Hbl).
  destruct (codificar_bloque_base2_ok self bloque Hv Hb Hbin Hne)
    as (l & Hl & Hcod).
  fold w in Hw, Hp, Hbl, Hl. fold v in Hl.
  pose proof (Numeral.valor_cota bloque) as Hc. fold v in Hc.
  destruct (Ventanas.ventanas_digitos _ _ _ _ Hw (proj1 Hc) Hl)
    as (Hran & Hsum & _).
  assert (Hpos : 0 < 2 ^ w) by (apply Z.pow_pos_nonneg; lia).
  assert (Hran' : Forall (fun d => 0 <= d < 2 ^ w) (canonico l))
    by (apply canonico_Forall; [lia | exact Hran]).
  assert (Hsum' : suma_ventanas w (canonico l) = v).
  { unfold suma_ventanas. rewrite canonico_suma by (intros; apply Z.shiftl_0_l).
    rewrite Hsum. cbn. lia. }
  exists l. split; [exact Hl|]. split; [exact Hcod|].
  split; [exact Hran'|]. split; [exact Hsum'|].
  unfold decodificar_bloque_base2. rewrite Hbl.
  rewrite reconstruir_base2_suma by (try exact Hran'; lia).
  cbn [bind]. rewrite Hsum'. f_equal. now apply a_binario_largo.
Qed.

(** C2: under a valid base-2 codec, a block of exactly [bits_por_bloque]
    bits is read as the unsigned integer [v], most significant bit first;
    with [w = log2 potencia] and [mask = potencia - 1] the encoder returns
    the windows [(v >> (i * w)) & mask] in increasing order of
    significance, stopping at the last non-zero window (and [[0]] for
    [v = 0]); the decoder rebuilds the sum of [digit[i] << (i * w)], which
    is [v], and writes it in exactly [bits_por_bloque] binary digits, so
    decoding the encoded block gives the block back, whether or not
    [bits_por_bloque] is a multiple of [w]. *)
Theorem C2_bloque_base2_ida_y_vuelta (self : Codificador)
  (bloque : list ascii) :
  valido self -> base self = 2 ->
  Py.es_binario bloque = true ->
  Z.of_nat (length bloque) = bits_por_bloque self ->
  let w := Z.log2 (potencia self) in
  let mask := potencia self - 1 in
  let v := Py.valor bloque in
  exists digitos,
    Py.int2 bloque = Ok v
    /\ codificar_bloque_base2 self bloque = Ok digitos
    /\ digitos <> []
    /\ (forall i, (i < length digitos)%nat ->
          nth i digitos 0 = Z.land (Z.shiftr v (Z.of_nat i * w)) mask)
    /\ (0 < v -> last digitos 0 <> 0)
    /\ (v = 0 -> digitos = [0])
    /\ reconstruir_base2 w digitos = Ok (suma_ventanas w digitos)
    /\ suma_ventanas w digitos = v
    /\ decodificar_bloque_base2 self digitos = Ok bloque
    /\ Z.of_nat (length (a_binario (bits_por_bloque self) v))
       = bits_por_bloque self.
Proof.
  intros Hv Hb Hbin Hlen w mask v.
  pose proof (bloque_no_vacio self bloque Hv Hlen) as Hne.
  destruct (valido_base2 self Hv Hb) as (Hw & Hp & _). fold w in Hw, Hp.
  destruct (bloque_base2_correcto self bloque Hv Hb Hbin Hlen)
    as (l & Hl & Hcod & Hran & Hsum & Hdec).
  fold w in Hl, Hran, Hsum. fold v in Hl, Hsum.
  pose proof (Numeral.valor_cota bloque) as Hc. fold v in Hc.
  destruct (Ventanas.ventanas_digitos _ _ _ _ Hw (proj1 Hc) Hl)
    as (_ & _ & Hnth).
  destruct (ventanas_ultimo _ _ _ _ Hw (proj1 Hc) Hl) as (Hnil & Hlast).
  exists (canonico l).
  split; [now apply Numeral.int2_valor|].
  split; [exact Hcod|].
  split; [apply canonico_no_vacio|].
  split; [|split; [|split; [|split; [|split; [|split]]]]].
  - intros i Hi. unfold mask. rewrite Hp.
    destruct l as [|d l].
    + assert (v = 0) as -> by now apply Hnil.
      cbn in Hi. assert (i = 0%nat) as -> by lia. reflexivity.
    + now apply Hnth.
  - intros Hv0. destruct l as [|d l]; [|now apply Hlast].
    assert (v = 0) by now apply Hnil. lia.
  - intros Hv0. apply Hnil in Hv0. now subst l.
  - apply reconstruir_base2_suma; [lia | exact Hran].
  - exact Hsum.
  - exact Hdec.
  - unfold v. now rewrite (a_binario_largo bloque).
Qed.

(** An instance of C2 in which the block width, 10, is not a multiple of
    the window width, 8. *)
Lemma C2_bloque_base2_testigo :
  exists digitos,
    codificar_bloque_base2
      {| base := 2; potencia := 256; bits_por_bloque := 10 |}
      (bits "1010101011"%string) = Ok digitos
    /\ decodificar_bloque_base2
         {| base := 2; potencia := 256; bits_por_bloque := 10 |} digitos
       = Ok (bits "1010101011"%string).
Proof.
  destruct (C2_bloque_base2_ida_y_vuelta
              {| base := 2; potencia := 256; bits_por_bloque := 10 |}
              (bits "1010101011"%string)
              eq_refl eq_refl eq_refl eq_refl)
    as (digitos & _ & Hc & _ & _ & _ & _ & _ & _ & Hd & _).
  exists digitos. split; [exact Hc | exact Hd].
Defined.

(** What the base-5 encoder returns under any valid codec. *)
Lemma codificar_bloque_base5_ok (self : Codificador) (bloque : list ascii) :
  valido self -> Py.es_binario bloque = true -> bloque <> [] ->
  exists l,
    bucle_residuos (vueltas (Py.valor bloque)) (potencia self)
      (Py.valor bloque) [] = Ok l
    /\ codificar_bloque_base5 self bloque = Ok (canonico l).
Proof.
  intros Hv Hbin Hne.
  pose proof (valido_potencia_pos self Hv) as Hp.
  pose proof (Numeral.valor_cota bloque) as Hc.
  destruct (Residuos.residuos_digitos (vueltas (Py.valor bloque))
              (potencia self) (Py.valor bloque) Hp) as (l & Hl & _).
  - split; [lia | apply vueltas_cota; lia].
  - exists l. split; [exact Hl|].
    unfold codificar_bloque_base5.
    rewrite Numeral.int2_valor by assumption. cbn [bind].
    rewrite Hl. reflexivity.
Qed.

(** The base-5 block codec on one block of a valid codec: the encoder
    returns the canonical form of what its loop leaves, and the decoder
    turns that back into the block. *)
Lemma bloque_base5_correcto (self : Codificador) (bloque : list ascii) :
  valido self ->
  Py.es_binario bloque = true ->
  Z.of_nat (length bloque) = bits_por_bloque self ->
  let p := potencia self in
  let v := Py.valor bloque in
  exists l,
    bucle_residuos (vueltas v) p v [] = Ok l
    /\ codificar_bloque_base5 self bloque = Ok (canonico l)
    /\ suma_residuos p (canonico l) = v
    /\ decodificar_bloque_base5 self (canonico l) = Ok bloque.
Proof.
  intros Hv Hbin Hlen p v.
  pose proof (bloque_no_vacio self bloque Hv Hlen) as Hne.
  pose proof (valido_potencia_pos self Hv) as Hp. fold p in Hp.
  destruct (codificar_bloque_base5_ok self bloque Hv Hbin Hne)
    as (l & Hl & Hcod).
  fold p in Hl. fold v in Hl.
  pose proof (Numeral.valor_cota bloque) as Hc. fold v in Hc.
  destruct (Residuos.residuos_digitos (vueltas v) p v Hp)
    as (l' & Hl' & _ & _ & Hsum & _).
  { split; [lia | apply vueltas_cota; lia]. }
  rewrite Hl in Hl'. injection Hl' as <-.
  assert (Hsum' : suma_residuos p (canonico l) = v).
  { unfold suma_residuos. rewrite canonico_suma by (intros; apply Z.mul_0_l).
    rewrite Hsum. cbn. lia. }
  exists l. split; [exact Hl|]. split; [exact Hcod|]. split; [exact Hsum'|].
  unfold decodificar_bloque_base5. fold p.
  rewrite reconstruir_base5_suma, Hsum'. f_equal.
  now apply a_binario_largo.
Qed.

(** C3: under a valid base-5 codec, a block of exactly [bits_por_bloque]
    bits is read as the unsigned integer [v]; the encoder returns the
    residues [(v // potencia^i) mod potencia] in increasing order of
    significance, stopping at the last non-zero one (and [[0]] for
    [v = 0]); the decoder computes the sum of [digit[i] * potencia^i],
    which is [v], and writes it in exactly [bits_por_bloque] binary
    digits, so decoding the encoded block gives the block back. *)
Theorem C3_bloque_base5_ida_y_vuelta (self : Codificador)
  (bloque : list ascii) :
  valido self -> base self = 5 ->
  Py.es_binario bloque = true ->
  Z.of_nat (length bloque) = bits_por_bloque self ->
  let p := potencia self in
  let v := Py.valor bloque in
  exists digitos,
    Py.int2 bloque = Ok v
    /\ codificar_bloque_base5 self bloque = Ok digitos
    /\ digitos <> []
    /\ (forall i, (i < length digitos)%nat ->
          nth i digitos 0 = (v / p ^ Z.of_nat i) mod p)
    /\ (0 < v -> last digitos 0 <> 0)
    /\ (v = 0 -> digitos = [0])
    /\ reconstruir_base5 p digitos = suma_residuos p digitos
    /\ suma_residuos p digitos = v
    /\ decodificar_bloque_base5 self digitos = Ok bloque
    /\ Z.of_nat (length (a_binario (bits_por_bloque self) v))
       = bits_por_bloque self.
Proof.
  intros Hv Hb Hbin Hlen p v.
  pose proof (bloque_no_vacio self bloque Hv Hlen) as Hne.
  pose proof (valido_potencia_pos self Hv) as Hp. fold p in Hp.
  destruct (bloque_base5_correcto self bloque Hv Hbin Hlen)
    as (l & Hl & Hcod & Hsum & Hdec).
  fold p in Hl, Hsum. fold v in Hl, Hsum.
  pose proof (Numeral.valor_cota bloque) as Hc. fold v in Hc.
  destruct (Residuos.residuos_digitos (vueltas v) p v Hp)
    as (l' & Hl' & _ & Hnil & _ & Hnth).
  { split; [lia | apply vueltas_cota; lia]. }
  rewrite Hl in Hl'. injection Hl' as <-.
  pose proof (residuos_ultimo _ _ _ _ Hp (proj1 Hc) Hl) as Hlast.
  exists (canonico l).
  split; [now apply Numeral.int2_valor|].
  split; [exact Hcod|].
  split; [apply canonico_no_vacio|].
  split; [|split; [|split; [|split; [|split; [|split]]]]].
  - intros i Hi. destruct l as [|d l].
    + assert (v = 0) as -> by now apply Hnil.
      cbn in Hi. assert (i = 0%nat) as -> by lia. reflexivity.
    + now apply Hnth.
  - intros Hv0. destruct l as [|d l]; [|now apply Hlast].
    assert (v = 0) by now apply Hnil. lia.
  - intros Hv0. apply Hnil in Hv0. now subst l.
  - apply reconstruir_base5_suma.
  - exact Hsum.
  - exact Hdec.
  - unfold v. now rewrite (a_binario_largo bloque).
Qed.

(** An instance of C3 on a ten-bit block. *)
Lemma C3_bloque_base5_testigo :
  exists digitos,
    codificar_bloque_base5
      {| base := 5; potencia := 25; bits_por_bloque := 10 |}
      (bits "1010101011"%string) = Ok digitos
    /\ decodificar_bloque_base5
         {| base := 5; potencia := 25; bits_por_bloque := 10 |} digitos
       = Ok (bits "1010101011"%string).
Proof.
  destruct (C3_bloque_base5_ida_y_vuelta
              {| base := 5; potencia := 25; bits_por_bloque := 10 |}
              (bits "1010101011"%string)
              eq_refl eq_refl eq_refl eq_refl)
    as (digitos & _ & Hc & _ & _ & _ & _ & _ & _ & Hd & _).
  exists digitos. split; [exact Hc | exact Hd].
Defined.

Lemma es_binario_ceros (n : nat) : Py.es_binario (repeat Py.cero n) = true.
Proof. induction n as [|n IH]; [reflexivity | exact IH]. Qed.

Lemma int2_ceros (n : nat) :
  (0 < n)%nat -> Py.int2 (repeat Py.cero n) = Ok 0.
Proof.
  intros Hn. rewrite Numeral.int2_valor.
  - now rewrite Numeral.valor_ceros.
  - destruct n; [lia | discriminate].
  - apply es_binario_ceros.
Qed.

(** C7: for every block size from 10 to 1000, the block of that many
    zeros encodes to the one-element digit sequence [[0]], never to the
    empty one, under the base-2 window encoder and under the base-5
    positional encoder. *)
Theorem C7_bloque_de_ceros (self : Codificador) :
  10 <= bits_por_bloque self <= 1000 ->
  codificar_bloque_base2 self (Py.ceros (bits_por_bloque self)) = Ok [0]
  /\ codificar_bloque_base5 self (Py.ceros (bits_por_bloque self)) = Ok [0].
Proof.
  intros Hn. unfold codificar_bloque_base2, codificar_bloque_base5, Py.ceros.
  rewrite int2_ceros by lia. cbn [bind].
  assert (Hv : vueltas 0 = 0%nat) by reflexivity. rewrite Hv.
  cbn [bucle_ventanas bucle_residuos Z.gtb Z.compare bind canonico].
  split; reflexivity.
Qed.

(** Instances of C7 at both ends of the range of block sizes, one per
    base. *)
Lemma C7_bloque_de_ceros_testigo :
  (codificar_bloque_base2
     {| base := 2; potencia := 16; bits_por_bloque := 10 |}
     (Py.ceros 10) = Ok [0]
   /\ codificar_bloque_base5
        {| base := 2; potencia := 16; bits_por_bloque := 10 |}
        (Py.ceros 10) = Ok [0])
  /\ (codificar_bloque_base2
        {| base := 5; potencia := 625; bits_por_bloque := 1000 |}
        (Py.ceros 1000) = Ok [0]
      /\ codificar_bloque_base5
           {| base := 5; potencia := 625; bits_por_bloque := 1000 |}
           (Py.ceros 1000) = Ok [0]).
Proof.
  split.
  - apply (C7_bloque_de_ceros
             {| base := 2; potencia := 16; bits_por_bloque := 10 |}).
    cbn. lia.
  - apply (C7_bloque_de_ceros
             {| base := 5; potencia := 625; bits_por_bloque := 1000 |}).
    cbn. lia.
Defined.

(** C9: under a valid codec both block encoders return on every non-empty
    bit string, and every digit either of them returns is at least zero
    and strictly below the configured power. *)
Theorem C9_digitos_en_rango (self : Codificador) (bloque : list ascii) :
  valido self -> Py.es_binario bloque = true -> bloque <> [] ->
  exists ventanas residuos,
    codificar_bloque_base2 self bloque = Ok ventanas
    /\ codificar_bloque_base5 self bloque = Ok residuos
    /\ Forall (fun d => 0 <= d < potencia self) ventanas
    /\ Forall (fun d => 0 <= d < potencia self) residuos.
Proof.
  intros Hv Hbin Hne.
  pose proof (valido_potencia_pos self Hv) as Hp.
  pose proof (Numeral.valor_cota bloque) as Hc.
  assert (Hfuel : 0 <= Py.valor bloque
                  < 2 ^ Z.of_nat (vueltas (Py.valor bloque)))
    by (split; [lia | apply vueltas_cota; lia]).
  destruct (Ventanas.ventanas_termina (vueltas (Py.valor bloque))
              (Py.bit_length (potencia self) - 1) (potencia self - 1)
              (Py.valor bloque)) as (l2 & Hl2 & Hran2 & _);
    [|lia|exact Hfuel|].
  { rewrite bit_length_log2 by lia.
    apply Z.log2_le_pow2; [lia|]. cbn. lia. }
  destruct (Residuos.residuos_digitos (vueltas (Py.valor bloque))
              (potencia self) (Py.valor bloque) Hp Hfuel)
    as (l5 & Hl5 & Hran5 & _).
  exists (canonico l2), (canonico l5).
  unfold codificar_bloque_base2, codificar_bloque_base5.
  rewrite Numeral.int2_valor by assumption. cbn [bind].
  rewrite Hl2, Hl5. cbn [bind].
  split; [reflexivity|]. split; [reflexivity|]. split.
  - apply canonico_Forall; [lia|].
    eapply Forall_impl; [|exact Hran2]. cbn. intros d Hd. lia.
  - apply canonico_Forall; [lia | exact Hran5].
Qed.

(** An instance of C9 on the 25 bits of the padding scenario. *)
Lemma C9_digitos_en_rango_testigo :
  exists ventanas residuos,
    codificar_bloque_base2
      {| base := 5; potencia := 25; bits_por_bloque := 40 |}
      (bits "1010101010101010101010101"%string) = Ok ventanas
    /\ codificar_bloque_base5
         {| base := 5; potencia := 25; bits_por_bloque := 40 |}
         (bits "1010101010101010101010101"%string) = Ok residuos
    /\ Forall (fun d => 0 <= d < 25) ventanas
    /\ Forall (fun d => 0 <= d < 25) residuos.
Proof.
  apply (C9_digitos_en_rango
           {| base := 5; potencia := 25; bits_por_bloque := 40 |}
           (bits "1010101010101010101010101"%string)).
  - reflexivity.
  - reflexivity.
  - discriminate.
Defined.

(** ** Block segmenter *)

Module Segmentador.

Lemma firstn_suma {A : Type} (a b : nat) (l : list A) :
  firstn (a + b) l = firstn a l ++ firstn b (skipn a l).
Proof.
  revert l. induction a as [|a IH]; intros l; [reflexivity|].
  destruct l as [|x l]; cbn.
  - now rewrite firstn_nil.
  - now rewrite IH.
Qed.

(** While whole blocks remain, the loop appends them and leaves the
    padding count at zero. *)
Lemma bloques_completos (N m : nat) (s : list ascii) :
  (0 < N)%nat -> (m * N <= length s)%nat ->
  exists B,
    fold_left (paso_bloque (Z.of_nat N) s)
      (map (fun k => (k * N)%nat) (seq 0 m)) ([], 0) = (B, 0)
    /\ concat B = firstn (m * N) s
    /\ Forall (fun b => length b = N) B
    /\ length B = m.
Proof.
  intros HN. induction m as [|m IH]; intros Hm.
  - exists []. cbn. repeat split; constructor.
  - destruct IH as (B & HB & Hcat & Hlen & Hcount); [lia|].
    set (b := firstn N (skipn (m * N) s)).
    assert (Hb : length b = N).
    { unfold b. rewrite length_firstn, length_skipn. cbn in Hm. lia. }
    exists (B ++ [b]).
    rewrite seq_S, map_app, fold_left_app, HB. cbn [plus map fold_left].
    unfold paso_bloque. rewrite Nat2Z.id. fold b. rewrite Hb.
    rewrite Z.ltb_irrefl. split; [reflexivity|].
    split; [|split].
    + rewrite concat_app, Hcat. cbn [concat]. rewrite app_nil_r.
      unfold b. rewrite <- firstn_suma. f_equal. lia.
    + apply Forall_app. split; [exact Hlen | repeat constructor; exact Hb].
    + rewrite length_app, Hcount. cbn. lia.
Qed.

(** The index list of the loop: one index per block, the last block being
    the short one when the length is not a multiple of the block size. *)
Lemma indices (N : nat) (L : nat) :
  (0 < N)%nat ->
  Py.range0 (Z.of_nat L) (Z.of_nat N)
  = Ok (map (fun k => (k * N)%nat)
          (seq 0 (L / N + (if (L mod N =? 0)%nat then 0 else 1)))).
Proof.
  intros HN. unfold Py.range0.
  destruct (Z.eqb_spec (Z.of_nat N) 0); [lia|].
  destruct (Z.ltb_spec (Z.of_nat N) 0); [lia|].
  rewrite Nat2Z.id. do 3 f_equal.
  pose proof (Nat.div_mod_eq L N) as Hdm.
  pose proof (Nat.mod_upper_bound L N ltac:(lia)) as Hr.
  apply Nat2Z.inj. rewrite Z2Nat.id.
  - rewrite Nat2Z.inj_add, Nat2Z.inj_div.
    destruct (Nat.eqb_spec (L mod N) 0) as [H0|H0].
    + symmetry. cbn [Z.of_nat]. rewrite Z.add_0_r.
      apply (Z.div_unique_pos _ _ _ (Z.of_nat N - 1)); [lia|].
      rewrite <- Nat2Z.inj_div. nia.
    + symmetry.
      apply (Z.div_unique_pos _ _ _ (Z.of_nat (L mod N) - 1)); [lia|].
      rewrite <- Nat2Z.inj_div. nia.
  - apply Z.div_pos; lia.
Qed.

(** The whole result of the segmenter. *)
Lemma resultado (self : Codificador) (s : list ascii) :
  0 < bits_por_bloque self ->
  exists bloques padding,
    binario_a_bloques self s = Ok (bloques, padding)
    /\ (padding = 0 <-> Z.of_nat (length s) mod bits_por_bloque self = 0)
    /\ 0 <= padding < bits_por_bloque self
    /\ concat bloques = s ++ Py.ceros padding
    /\ Forall (fun b => Z.of_nat (length b) = bits_por_bloque self) bloques
    /\ Z.of_nat (length bloques)
       = (Z.of_nat (length s) + bits_por_bloque self - 1)
         / bits_por_bloque self
    /\ (padding =
        if Z.of_nat (length s) mod bits_por_bloque self =? 0 then 0
        else bits_por_bloque self
             - Z.of_nat (length s) mod bits_por_bloque self).
Proof.
  intros Hn. unfold binario_a_bloques.
  set (N := Z.to_nat (bits_por_bloque self)).
  assert (HN : (0 < N)%nat) by (unfold N; lia).
  assert (Hn' : bits_por_bloque self = Z.of_nat N) by (unfold N; lia).
  rewrite Hn'. clear Hn Hn'.
  remember (length s) as L eqn:HL.
  pose proof (Nat.div_mod_eq L N) as Hdm.
  pose proof (Nat.mod_upper_bound L N ltac:(lia)) as Hr.
  assert (Hcount : forall k : nat,
             Z.of_nat k = (Z.of_nat L + Z.of_nat N - 1) / Z.of_nat N <->
             k = (L / N + (if (L mod N =? 0)%nat then 0 else 1))%nat).
  { intros k. pose proof (indices N L HN) as Hi. unfold Py.range0 in Hi.
    destruct (Z.eqb_spec (Z.of_nat N) 0); [lia|].
    destruct (Z.ltb_spec (Z.of_nat N) 0); [lia|].
    injection Hi as Hi. rewrite Nat2Z.id in Hi.
    apply (f_equal (@length nat)) in Hi.
    rewrite !length_map, !length_seq in Hi. rewrite <- Hi.
    assert (0 <= (Z.of_nat L + Z.of_nat N - 1) / Z.of_nat N)
      by (apply Z.div_pos; lia). lia. }
  rewrite indices by exact HN. cbn [bind].
  rewrite <- Nat2Z.inj_mod.
  destruct (bloques_completos N (L / N) s HN) as (B & HB & Hcat & Hlen & HcB).
  { rewrite <- HL, Nat.mul_comm. lia. }
  destruct (Nat.eqb_spec (L mod N) 0) as [H0|H0].
  - exists B, 0. rewrite Nat.add_0_r, HB, H0. cbn [Z.of_nat Z.eqb].
    split; [reflexivity|]. split; [tauto|]. split; [lia|].
    split; [|split; [|split; [|reflexivity]]].
    + rewrite Hcat. cbn. rewrite app_nil_r. apply firstn_all2. rewrite <- HL. nia.
    + eapply Forall_impl; [|exact Hlen]. cbn. intros b Hb. lia.
    + apply Hcount. lia.
  - set (b := firstn N (skipn (L / N * N) s)).
    assert (Hb : length b = (L mod N)%nat).
    { unfold b. rewrite length_firstn, length_skipn, <- HL. nia. }
    assert (Hbs : b = skipn (L / N * N) s).
    { unfold b. apply firstn_all2. rewrite length_skipn, <- HL. nia. }
    exists (B ++ [b ++ Py.ceros (Z.of_nat N - Z.of_nat (L mod N))]),
      (Z.of_nat N - Z.of_nat (L mod N)).
    rewrite Nat.add_1_r, seq_S, map_app, fold_left_app, HB.
    cbn [plus map fold_left]. unfold paso_bloque. rewrite Nat2Z.id.
    fold b. rewrite Hb.
    destruct (Z.ltb_spec (Z.of_nat (L mod N)) (Z.of_nat N)); [|lia].
    destruct (Z.eqb_spec (Z.of_nat (L mod N)) 0); [lia|].
    split; [reflexivity|]. split; [lia|]. split; [lia|].
    split; [|split; [|split; [|reflexivity]]].
    + rewrite concat_app, Hcat. cbn [concat]. rewrite app_nil_r, app_assoc.
      f_equal. rewrite Hbs. apply firstn_skipn.
    + apply Forall_app. split.
      * eapply Forall_impl; [|exact Hlen]. cbn. intros x Hx. lia.
      * repeat constructor. rewrite length_app, Hb.
        unfold Py.ceros. rewrite repeat_length. lia.
    + apply Hcount. rewrite length_app, HcB. reflexivity.
Qed.

End Segmentador.

(** C4: for every string and every block size from 10 to 1000 the
    segmenter returns, with a padding count that is at least zero and
    below the block size, and zero exactly when the length of the input
    is a multiple of the block size; the empty input gives no block and no
    padding; every block has exactly the block size; the blocks joined in
    order are the input followed by as many zeros as the padding count,
    which is the block size minus the length of the short final chunk. *)
Theorem C4_segmentador (self : Codificador) (datos : list ascii) :
  10 <= bits_por_bloque self <= 1000 ->
  let n := bits_por_bloque self in
  let largo := Z.of_nat (length datos) in
  exists bloques padding,
    binario_a_bloques self datos = Ok (bloques, padding)
    /\ 0 <= padding < n
    /\ (padding = 0 <-> largo mod n = 0)
    /\ (datos = [] -> bloques = [] /\ padding = 0)
    /\ Forall (fun b => Z.of_nat (length b) = n) bloques
    /\ concat bloques = datos ++ Py.ceros padding
    /\ Z.of_nat (length bloques) = (largo + n - 1) / n
    /\ (largo mod n <> 0 -> padding = n - largo mod n).
Proof.
  intros Hn n largo.
  destruct (Segmentador.resultado self datos ltac:(lia))
    as (bloques & padding & Hr & Hz & Hran & Hcat & Hlen & Hcount & Hpad).
  fold n in Hz, Hran, Hlen, Hcount, Hpad. fold largo in Hz, Hcount, Hpad.
  exists bloques, padding.
  split; [exact Hr|]. split; [exact Hran|]. split; [exact Hz|].
  split; [|split; [exact Hlen|split; [exact Hcat|split; [exact Hcount|]]]].
  - intros ->. cbn in largo. subst largo. split.
    + rewrite Z.div_small in Hcount by lia.
      destruct bloques; [reflexivity | discriminate].
    + apply Hz. apply Z.mod_0_l. lia.
  - intros Hne. destruct (Z.eqb_spec (largo mod n) 0); [contradiction|].
    exact Hpad.
Qed.

(** An instance of C4: 25 bits in blocks of 40 leave 15 bits of padding. *)
Lemma C4_segmentador_testigo :
  exists bloques padding,
    binario_a_bloques {| base := 5; potencia := 25; bits_por_bloque := 40 |}
      (bits "1010101010101010101010101"%string) = Ok (bloques, padding)
    /\ Z.of_nat (length bloques) = 1
    /\ padding = 15.
Proof.
  destruct (C4_segmentador
              {| base := 5; potencia := 25; bits_por_bloque := 40 |}
              (bits "1010101010101010101010101"%string))
    as (bloques & padding & Hr & _ & _ & _ & _ & _ & Hc & Hp).
  - cbn. lia.
  - exists bloques, padding. split; [exact Hr|]. split.
    + exact Hc.
    + apply Hp. cbn. discriminate.
Defined.

(** ** Stream codec *)

Lemma para_cada_uno {A B : Type} (f : A -> resultado B)
  (l : list A) (gs : list B) (k : nat) (acc : list B) :
  Forall2 (fun x y => f x = Ok y) l gs ->
  para_cada (fun acc '(idx, x) => v <- f x ;; Ok (acc ++ [v]))
    (enumerate k l) acc
  = Ok (acc ++ gs).
Proof.
  intros H. revert k acc. induction H as [|x y l gs Hxy _ IH]; intros k acc.
  - cbn. now rewrite app_nil_r.
  - rewrite enumerate_cons. cbn [para_cada]. rewrite Hxy. cbn [bind].
    rewrite IH, <- app_assoc. reflexivity.
Qed.

Lemma es_binario_app (a b : list ascii) :
  Py.es_binario (a ++ b) = Py.es_binario a && Py.es_binario b.
Proof. apply forallb_app. Qed.

Lemma es_binario_concat (bloques : list (list ascii)) :
  Py.es_binario (concat bloques) = true ->
  Forall (fun b => Py.es_binario b = true) bloques.
Proof.
  induction bloques as [|b r IH]; intros H; [constructor|].
  cbn [concat] in H. rewrite es_binario_app in H.
  apply andb_true_iff in H. destruct H as [Hb Hr].
  constructor; [exact Hb | now apply IH].
Qed.

Lemma valido_base (self : Codificador) :
  valido self -> base self = 2 \/ base self = 5.
Proof.
  intros Hv. apply valido_inv in Hv. destruct Hv as [[[H _]|[H _]] _]; auto.
Qed.

(** The block codec chosen by the base undoes itself on every block. *)
Lemma bloque_ida_y_vuelta (self : Codificador) (bloque : list ascii) :
  valido self -> Py.es_binario bloque = true ->
  Z.of_nat (length bloque) = bits_por_bloque self ->
  exists digitos,
    codificar_bloque self bloque = Ok digitos
    /\ decodificar_bloque self digitos = Ok bloque.
Proof.
  intros Hv Hbin Hlen. unfold codificar_bloque, decodificar_bloque.
  destruct (valido_base self Hv) as [Hb|Hb]; rewrite Hb; cbn [Z.eqb Pos.eqb].
  - destruct (bloque_base2_correcto self bloque Hv Hb Hbin Hlen)
      as (l & _ & Hc & _ & _ & Hd).
    now exists (canonico l).
  - destruct (bloque_base5_correcto self bloque Hv Hbin Hlen)
      as (l & _ & Hc & _ & Hd).
    now exists (canonico l).
Qed.

Lemma bloques_ida_y_vuelta (self : Codificador)
  (bloques : list (list ascii)) :
  valido self ->
  Forall (fun b => Py.es_binario b = true) bloques ->
  Forall (fun b => Z.of_nat (length b) = bits_por_bloque self) bloques ->
  exists codificados,
    Forall2 (fun b c => codificar_bloque self b = Ok c) bloques codificados
    /\ Forall2 (fun c b => decodificar_bloque self c = Ok b)
         codificados bloques.
Proof.
  intros Hv Hbin Hlen. induction bloques as [|b r IH].
  - exists []. split; constructor.
  - inversion Hbin as [|? ? Hb Hr]; subst.
    inversion Hlen as [|? ? Hlb Hlr]; subst.
    destruct (IH Hr Hlr) as (cs & Hc & Hd).
    destruct (bloque_ida_y_vuelta self b Hv Hb Hlb) as (c & Hcb & Hdb).
    exists (c :: cs). split; constructor; assumption.
Qed.

Lemma quitar_padding (datos : list ascii) (padding : Z) :
  0 <= padding ->
  (if padding >? 0
   then Py.sin_ultimos padding (datos ++ Py.ceros padding)
   else datos ++ Py.ceros padding) = datos.
Proof.
  intros Hp. destruct (Z.gtb_spec padding 0) as [Hpos|Hz].
  - unfold Py.sin_ultimos, Py.ceros.
    rewrite length_app, repeat_length.
    replace (length datos + Z.to_nat padding - Z.to_nat padding)%nat
      with (length datos + 0)%nat by lia.
    rewrite firstn_app_2. cbn. now rewrite app_nil_r.
  - assert (padding = 0) as -> by lia. cbn. now rewrite app_nil_r.
Qed.

Section IdaYVuelta.

Variable tiempo : Type.

(** The stream codec undoes itself, and records the configuration and the
    result of the segmenter in the stream. *)
Lemma flujo_ida_y_vuelta (self : Codificador) (transcurrido : tiempo)
  (datos : list ascii) :
  valido self -> Py.es_binario datos = true ->
  exists codificado : DatosCodificados tiempo,
    codificar self transcurrido datos = Ok codificado
    /\ decodificar self codificado = Ok datos
    /\ d_base codificado = base self
    /\ d_potencia codificado = potencia self
    /\ d_bits_por_bloque codificado = bits_por_bloque self
    /\ bits_originales codificado = Z.of_nat (length datos)
    /\ num_bloques codificado
       = Z.of_nat (length (bloques_codificados codificado))
    /\ (exists bloques,
          binario_a_bloques self datos
          = Ok (bloques, bits_padding codificado)).
Proof.
  intros Hv Hbin. pose proof (valido_tamano self Hv) as Hn.
  destruct (Segmentador.resultado self datos ltac:(lia))
    as (bloques & padding & Hr & _ & Hran & Hcat & Hlen & _).
  assert (Hbs : Forall (fun b => Py.es_binario b = true) bloques).
  { apply es_binario_concat. rewrite Hcat, es_binario_app, Hbin.
    apply es_binario_ceros. }
  destruct (bloques_ida_y_vuelta self bloques Hv Hbs Hlen) as (cs & Hc & Hd).
  unfold codificar. rewrite Hr. cbn [bind].
  rewrite (para_cada_uno (codificar_bloque self) bloques cs 1 [] Hc).
  cbn [bind app].
  eexists. split; [reflexivity|].
  split; [|repeat split].
  - unfold decodificar, si_lanza. cbn [d_base d_potencia d_bits_por_bloque].
    rewrite !Z.eqb_refl. cbn [negb bind].
    unfold decodificar_bloques. cbn [bloques_codificados bits_padding].
    rewrite (para_cada_uno (decodificar_bloque self) cs bloques 1 [] Hd).
    cbn [bind app]. rewrite Hcat. f_equal. apply quitar_padding. lia.
  - cbn [num_bloques bloques_codificados]. f_equal.
    eapply Forall2_length. exact Hc.
  - exists bloques. reflexivity.
Qed.

End IdaYVuelta.

Lemma valido_legal (self : Codificador) :
  valido self <->
  potencia_legal (base self) (potencia self)
  /\ 10 <= bits_por_bloque self <= 1000.
Proof.
  unfold valido. rewrite init_ok. fold (tamano_legal (bits_por_bloque self)).
  destruct self. cbn. tauto.
Qed.

(** C1: for every legal configuration (base 2 with one of its seven
    powers or base 5 with one of its four, block size from 10 to 1000) and
    every string of '0' and '1' characters, the empty one included,
    [codificar] returns a stream and [decodificar] of that stream under the
    same configuration returns the string it was given. *)
Theorem C1_ida_y_vuelta (tiempo : Type) (self : Codificador)
  (transcurrido : tiempo) (datos : list ascii) :
  potencia_legal (base self) (potencia self) ->
  10 <= bits_por_bloque self <= 1000 ->
  Py.es_binario datos = true ->
  exists codificado,
    codificar self transcurrido datos = Ok codificado
    /\ decodificar self codificado = Ok datos.
Proof.
  intros Hp Hn Hbin.
  assert (Hv : valido self) by (apply valido_legal; split; assumption).
  destruct (flujo_ida_y_vuelta tiempo self transcurrido datos Hv Hbin)
    as (c & Hc & Hd & _).
  now exists c.
Qed.

(** An instance of C1: the 25-bit scenario under base 5, power 25 and
    blocks of 40 bits. *)
Lemma C1_ida_y_vuelta_testigo :
  exists codificado : DatosCodificados unit,
    codificar {| base := 5; potencia := 25; bits_por_bloque := 40 |} tt
      (bits "1010101010101010101010101"%string) = Ok codificado
    /\ decodificar {| base := 5; potencia := 25; bits_por_bloque := 40 |}
         codificado
       = Ok (bits "1010101010101010101010101"%string).
Proof.
  apply (C1_ida_y_vuelta unit
           {| base := 5; potencia := 25; bits_por_bloque := 40 |} tt
           (bits "1010101010101010101010101"%string)).
  - right. split; [reflexivity|]. right. left. reflexivity.
  - cbn. lia.
  - reflexivity.
Defined.

(** The two end-to-end scenarios of the specification, computed. *)
Example escenario_base5 :
  (r <- codificar {| base := 5; potencia := 25; bits_por_bloque := 40 |} tt
          (bits "1010101010101010101010101"%string) ;;
   s <- decodificar {| base := 5; potencia := 25; bits_por_bloque := 40 |}
          r ;;
   Ok (num_bloques r, bits_padding r, s))
  = Ok (1, 15, bits "1010101010101010101010101"%string).
Proof. vm_compute. reflexivity. Qed.

Example escenario_base2 :
  (r <- codificar {| base := 2; potencia := 16; bits_por_bloque := 40 |} tt
          (repeat Py.uno 95) ;;
   s <- decodificar {| base := 2; potencia := 16; bits_por_bloque := 40 |}
          r ;;
   Ok (num_bloques r, bits_padding r, s))
  = Ok (3, 25, repeat Py.uno 95).
Proof. vm_compute. reflexivity. Qed.

(** ** Parameter checks of the decoder *)

Section Decodificador.

Variable tiempo : Type.

(** C6: when the base, the power or the block size recorded in the stream
    differs from the codec's, [decodificar] raises a [ValueError] whose
    message names a field that differs (the base first, then the power,
    then the block size) and returns no string; the outcome is the same
    for every list of encoded blocks and every padding count, so it is
    settled before any block is decoded. *)
Theorem C6_parametros_no_coinciden (self : Codificador)
  (datos_codificados : DatosCodificados tiempo) :
  d_base datos_codificados <> base self
  \/ d_potencia datos_codificados <> potencia self
  \/ d_bits_por_bloque datos_codificados <> bits_por_bloque self ->
  exists m,
    decodificar self datos_codificados = Raise (ValueError m)
    /\ ((m = BaseNoCoincide /\ d_base datos_codificados <> base self)
        \/ (m = PotenciaNoCoincide
            /\ d_base datos_codificados = base self
            /\ d_potencia datos_codificados <> potencia self)
        \/ (m = TamanoBloqueNoCoincide
            /\ d_base datos_codificados = base self
            /\ d_potencia datos_codificados = potencia self
            /\ d_bits_por_bloque datos_codificados <> bits_por_bloque self))
    /\ (forall otros : DatosCodificados tiempo,
          d_base otros = d_base datos_codificados ->
          d_potencia otros = d_potencia datos_codificados ->
          d_bits_por_bloque otros = d_bits_por_bloque datos_codificados ->
          decodificar self otros = Raise (ValueError m)).
Proof.
  intros H. unfold decodificar, si_lanza.
  destruct (Z.eqb_spec (d_base datos_codificados) (base self)) as [Hb|Hb].
  - destruct (Z.eqb_spec (d_potencia datos_codificados) (potencia self))
      as [Hp|Hp].
    + destruct (Z.eqb_spec (d_bits_por_bloque datos_codificados)
                  (bits_por_bloque self)) as [Hn|Hn]; [tauto|].
      exists TamanoBloqueNoCoincide. split; [reflexivity|].
      split; [tauto|]. intros otros -> -> ->.
      rewrite Hb, Hp, !Z.eqb_refl. cbn.
      destruct (Z.eqb_spec (d_bits_por_bloque datos_codificados)
                  (bits_por_bloque self)); [contradiction | reflexivity].
    + exists PotenciaNoCoincide. split; [reflexivity|].
      split; [tauto|]. intros otros -> -> _.
      rewrite Hb, Z.eqb_refl. cbn.
      destruct (Z.eqb_spec (d_potencia datos_codificados) (potencia self));
        [contradiction | reflexivity].
  - exists BaseNoCoincide. split; [reflexivity|].
    split; [tauto|]. intros otros -> _ _.
    destruct (Z.eqb_spec (d_base datos_codificados) (base self));
      [contradiction | reflexivity].
Qed.

(** C10: two streams with the same encoded blocks, padding count, base,
    power and block size decode to the same outcome, whatever their block
    count, original length and timing say. *)
Theorem C10_metadatos_no_consultados (self : Codificador)
  (d1 d2 : DatosCodificados tiempo) :
  bloques_codificados d1 = bloques_codificados d2 ->
  bits_padding d1 = bits_padding d2 ->
  d_base d1 = d_base d2 ->
  d_potencia d1 = d_potencia d2 ->
  d_bits_por_bloque d1 = d_bits_por_bloque d2 ->
  decodificar self d1 = decodificar self d2.
Proof.
  intros Hb Hp H1 H2 H3.
  unfold decodificar, decodificar_bloques.
  now rewrite Hb, Hp, H1, H2, H3.
Qed.

End Decodificador.

(** An instance of C6: a stream encoded under base 5 is refused by a
    base-2 codec, and the error names the base. *)
Lemma C6_parametros_no_coinciden_testigo :
  decodificar {| base := 2; potencia := 16; bits_por_bloque := 40 |}
    {| bloques_codificados := [[3; 12; 10; 20; 24; 9; 2; 20; 4]];
       bits_padding := 15;
       d_base := 5;
       d_potencia := 25;
       d_bits_por_bloque := 40;
       num_bloques := 1;
       bits_originales := 25;
       tiempo_codificacion := tt |}
  = Raise (ValueError BaseNoCoincide).
Proof.
  destruct (C6_parametros_no_coinciden unit
              {| base := 2; potencia := 16; bits_por_bloque := 40 |}
              {| bloques_codificados := [[3; 12; 10; 20; 24; 9; 2; 20; 4]];
                 bits_padding := 15;
                 d_base := 5;
                 d_potencia := 25;
                 d_bits_por_bloque := 40;
                 num_bloques := 1;
                 bits_originales := 25;
                 tiempo_codificacion := tt |})
    as (m & Hr & [[Hm _] | [[_ [Hb _]] | [_ [Hb _]]]] & _).
  - left. cbn. discriminate.
  - rewrite Hm in Hr. exact Hr.
  - cbn in Hb. discriminate Hb.
  - cbn in Hb. discriminate Hb.
Defined.

(** An instance of C10: the metadata of a stream are changed and the
    decoder returns the same string. *)
Lemma C10_metadatos_no_consultados_testigo :
  decodificar {| base := 5; potencia := 25; bits_por_bloque := 40 |}
    {| bloques_codificados := [[3; 12; 10; 20; 24; 9; 2; 20; 4]];
       bits_padding := 15;
       d_base := 5;
       d_potencia := 25;
       d_bits_por_bloque := 40;
       num_bloques := 1;
       bits_originales := 25;
       tiempo_codificacion := 0 |}
  = decodificar {| base := 5; potencia := 25; bits_por_bloque := 40 |}
      {| bloques_codificados := [[3; 12; 10; 20; 24; 9; 2; 20; 4]];
         bits_padding := 15;
         d_base := 5;
         d_potencia := 25;
         d_bits_por_bloque := 40;
         num_bloques := 7;
         bits_originales := 0;
         tiempo_codificacion := 99 |}.
Proof.
  apply (C10_metadatos_no_consultados Z); reflexivity.
Defined.

(** ** Integrity verifier *)

Section Verificador.

Variable sha256_hexdigest : list Z -> list ascii.

Lemma cadenas_iguales_refl (a : list ascii) : cadenas_iguales a a = true.
Proof.
  unfold cadenas_iguales. destruct (list_eq_dec ascii_dec a a); congruence.
Qed.

Lemma cadenas_iguales_iff (a b : list ascii) :
  cadenas_iguales a b = true <-> a = b.
Proof.
  unfold cadenas_iguales. destruct (list_eq_dec ascii_dec a b);
    split; congruence.
Qed.

(** Packing succeeds on every non-empty bit string: the padded string has
    a whole number of bytes and its value fits in them. *)
Lemma a_bytes_ok (s : list ascii) :
  Py.es_binario s = true -> s <> [] -> exists bs, a_bytes s = Ok bs.
Proof.
  intros Hbin Hne. unfold a_bytes.
  set (pad := (8 - Z.of_nat (length s) mod 8) mod 8).
  assert (Hpad : 0 <= pad < 8) by (apply Z.mod_pos_bound; lia).
  assert (Hbin' : Py.es_binario (s ++ Py.ceros pad) = true).
  { rewrite es_binario_app, Hbin. apply es_binario_ceros. }
  assert (Hne' : s ++ Py.ceros pad <> []).
  { destruct s; [congruence | discriminate]. }
  rewrite Numeral.int2_valor by assumption. cbn [bind].
  pose proof (Numeral.valor_cota (s ++ Py.ceros pad)) as Hc.
  assert (Hlen : Z.of_nat (length (s ++ Py.ceros pad))
                 = Z.of_nat (length s) + pad).
  { rewrite length_app. unfold Py.ceros. rewrite repeat_length. lia. }
  assert (Hmul : Z.of_nat (length (s ++ Py.ceros pad))
                 = 8 * (Z.of_nat (length (s ++ Py.ceros pad)) / 8)).
  { rewrite Hlen. unfold pad.
    pose proof (Z.div_mod (Z.of_nat (length s)) 8 ltac:(lia)).
    pose proof (Z.mod_pos_bound (Z.of_nat (length s)) 8 ltac:(lia)).
    apply Z.div_exact; [lia|]. Z.div_mod_to_equations. lia. }
  unfold to_bytes.
  assert (H256 : 256 ^ (Z.of_nat (length (s ++ Py.ceros pad)) / 8)
                 = 2 ^ Z.of_nat (length (s ++ Py.ceros pad))).
  { rewrite Hmul at 2. change 256 with (2 ^ 8).
    rewrite <- Z.pow_mul_r; [reflexivity | lia | apply Z.div_pos; lia]. }
  rewrite H256.
  destruct (Z.ltb_spec (Py.valor (s ++ Py.ceros pad)) 0); [lia|].
  destruct (Z.leb_spec (2 ^ Z.of_nat (length (s ++ Py.ceros pad)))
              (Py.valor (s ++ Py.ceros pad))); [lia|].
  cbn [orb]. eexists. reflexivity.
Qed.

(** The returned flag is the conjunction of the two comparisons. *)
Lemma verificar_integridad_ok (original decodificado h1 h2 : list ascii) :
  calcular_sha256 sha256_hexdigest original = Ok h1 ->
  calcular_sha256 sha256_hexdigest decodificado = Ok h2 ->
  verificar_integridad sha256_hexdigest original decodificado
  = Ok (cadenas_iguales original decodificado && cadenas_iguales h1 h2).
Proof.
  intros H1 H2. unfold verificar_integridad. now rewrite H1, H2.
Qed.

(** On a non-empty bit string and itself both comparisons hold. *)
Lemma verificar_identicos (s : list ascii) :
  Py.es_binario s = true -> s <> [] ->
  verificar_integridad sha256_hexdigest s s = Ok true.
Proof.
  intros Hbin Hne. destruct (a_bytes_ok s Hbin Hne) as (bs & Hbs).
  rewrite (verificar_integridad_ok s s (sha256_hexdigest bs)
             (sha256_hexdigest bs)).
  - now rewrite !cadenas_iguales_refl.
  - unfold calcular_sha256. now rewrite Hbs.
  - unfold calcular_sha256. now rewrite Hbs.
Qed.

(** Different strings fail the bitwise comparison, whatever the hashes. *)
Lemma verificar_distintos (a b : list ascii) (r : bool) :
  a <> b -> verificar_integridad sha256_hexdigest a b = Ok r -> r = false.
Proof.
  intros Hab H. unfold verificar_integridad in H.
  apply bind_ok in H. destruct H as (h1 & _ & H).
  apply bind_ok in H. destruct H as (h2 & _ & H).
  injection H as <-.
  destruct (cadenas_iguales a b) eqn:E; [|reflexivity].
  apply cadenas_iguales_iff in E. contradiction.
Qed.

(** C8, on the empty bit string: the original and the reconstruction are
    identical, and the verifier raises the invalid-literal [ValueError] of
    [int('', 2)] while computing the first hash instead of reporting that
    the bits and the hashes agree; this is what happens to the empty
    string after its round trip through the codec. *)
Theorem C8_verificar_cadena_vacia :
  calcular_sha256 sha256_hexdigest [] = Raise (ValueError LiteralInvalido)
  /\ verificar_integridad sha256_hexdigest [] []
     = Raise (ValueError LiteralInvalido)
  /\ (r <- codificar {| base := 2; potencia := 16; bits_por_bloque := 40 |}
             tt [] ;;
      s <- decodificar {| base := 2; potencia := 16; bits_por_bloque := 40 |}
             r ;;
      verificar_integridad sha256_hexdigest [] s)
     = Raise (ValueError LiteralInvalido).
Proof.
  repeat split.
Qed.

End Verificador.

(** ** The bound on the turns of the two loops

    [vueltas] is enough whenever the loop of the source leaves, more turns
    change nothing, and the one way to run out is the loop that never
    leaves: a window of zero bits or a divisor of one. *)

Module Vueltas.

Lemma ventanas_mas (fuel k : nat) (w m v : Z) (l : list Z) :
  bucle_ventanas fuel w m v [] = Ok l ->
  bucle_ventanas (fuel + k) w m v [] = Ok l.
Proof.
  revert v l. induction fuel as [|fuel IH]; intros v l H.
  - cbn in H. destruct (Z.gtb_spec v 0); [discriminate|].
    injection H as <-. now apply Ventanas.ventanas_fin.
  - cbn [bucle_ventanas plus] in *.
    destruct (v >? 0); [|exact H].
    destruct (desplazar_der v w) as [s| |]; cbn [bind] in *;
      try discriminate.
    rewrite Ventanas.ventanas_acc in H. rewrite Ventanas.ventanas_acc.
    apply bind_ok in H. destruct H as (r & Hr & H).
    now rewrite (IH _ _ Hr).
Qed.

Lemma ventana_nula (fuel : nat) (m v : Z) (acc : list Z) :
  0 < v -> bucle_ventanas fuel 0 m v acc = NoTermina.
Proof.
  intros Hv. revert acc. induction fuel as [|fuel IH]; intros acc; cbn;
    destruct (Z.gtb_spec v 0); try lia; [reflexivity|].
  try rewrite Z.shiftr_0_r. apply IH.
Qed.

Lemma residuos_mas (fuel k : nat) (p v : Z) (l : list Z) :
  bucle_residuos fuel p v [] = Ok l ->
  bucle_residuos (fuel + k) p v [] = Ok l.
Proof.
  revert v l. induction fuel as [|fuel IH]; intros v l H.
  - cbn in H. destruct (Z.gtb_spec v 0); [discriminate|].
    injection H as <-. destruct k; cbn; destruct (Z.gtb_spec v 0);
      (lia || reflexivity).
  - cbn [bucle_residuos plus] in *.
    destruct (v >? 0); [|exact H].
    destruct (p =? 0); [discriminate|].
    rewrite Residuos.residuos_acc in H. rewrite Residuos.residuos_acc.
    apply bind_ok in H. destruct H as (r & Hr & H).
    now rewrite (IH _ _ Hr).
Qed.

Lemma divisor_uno (fuel : nat) (v : Z) (acc : list Z) :
  0 < v -> bucle_residuos fuel 1 v acc = NoTermina.
Proof.
  intros Hv. revert acc. induction fuel as [|fuel IH]; intros acc; cbn;
    destruct (Z.gtb_spec v 0); try lia; [reflexivity|].
  rewrite Z.div_1_r. apply IH.
Qed.

End Vueltas.

(** ** Numerals written by the decoder *)

Module Escritura.

Import Py.

Lemma valor_app (a b : list ascii) :
  valor (a ++ b) = valor a * 2 ^ Z.of_nat (length b) + valor b.
Proof.
  unfold valor at 1. rewrite fold_left_app. fold (valor a).
  apply Numeral.valor_desde.
Qed.

Lemma digitos_pos_acc (p : positive) (acc : list ascii) :
  digitos_pos p acc = digitos_pos p [] ++ acc.
Proof.
  revert acc. induction p as [p IH|p IH|]; intros acc; cbn.
  - rewrite IH, (IH [uno]), <- app_assoc. reflexivity.
  - rewrite IH, (IH [cero]), <- app_assoc. reflexivity.
  - reflexivity.
Qed.

Lemma digitos_pos_uno (p : positive) (acc : list ascii) :
  exists t, digitos_pos p acc = uno :: t.
Proof.
  revert acc. induction p as [p IH|p IH|]; intros acc; cbn.
  - apply IH.
  - apply IH.
  - now exists acc.
Qed.

Lemma digitos_pos_binario (p : positive) :
  es_binario (digitos_pos p []) = true.
Proof.
  induction p as [p IH|p IH|]; cbn [digitos_pos]; try reflexivity;
    rewrite digitos_pos_acc, es_binario_app, IH; reflexivity.
Qed.

Lemma digitos_pos_valor (p : positive) : valor (digitos_pos p []) = Zpos p.
Proof.
  induction p as [p IH|p IH|]; cbn [digitos_pos]; try reflexivity;
    rewrite digitos_pos_acc, valor_app, IH; cbn; lia.
Qed.

(** The numeral of a positive number has as many digits as
    [bit_length] says. *)
Lemma digitos_pos_largo (p : positive) :
  Z.of_nat (length (digitos_pos p [])) = bit_length (Zpos p).
Proof.
  destruct (digitos_pos_uno p []) as (t & Ht).
  pose proof (digitos_pos_valor p) as Hv. rewrite Ht in Hv.
  rewrite Numeral.valor_cons in Hv. change (valor_bit uno) with 1 in Hv.
  pose proof (Numeral.valor_cota t) as Hc.
  rewrite Ht. cbn [length]. unfold bit_length. cbn [Z.eqb Z.abs].
  rewrite Nat2Z.inj_succ.
  rewrite (Z.log2_unique (Zpos p) (Z.of_nat (length t))); [lia|lia|].
  rewrite Z.pow_succ_r by lia. lia.
Qed.

(** What [a_binario] writes for a number that is not negative: a bit
    string that spells it, in the block size or in the digits the number
    needs, whichever is more. *)
Lemma a_binario_escribe (n v : Z) :
  0 <= v ->
  es_binario (a_binario n v) = true
  /\ valor (a_binario n v) = v
  /\ Z.of_nat (length (a_binario n v)) = Z.max 0 (Z.max n (bit_length v)).
Proof.
  intros Hv. unfold a_binario. destruct v as [|p|p]; [| |lia].
  - cbn [Z.eqb]. unfold ceros.
    rewrite es_binario_ceros, Numeral.valor_ceros, repeat_length.
    change (bit_length 0) with 0. repeat split. lia.
  - cbn [Z.eqb bin desde skipn app].
    destruct (digitos_pos_uno p []) as (t & Ht).
    pose proof (digitos_pos_binario p) as Hb.
    pose proof (digitos_pos_valor p) as Hval.
    pose proof (digitos_pos_largo p) as Hl.
    assert (Hnn : 0 <= bit_length (Zpos p)) by apply bit_length_nonneg.
    unfold zfill. rewrite Ht in *.
    cbn [Ascii.eqb uno Bool.eqb orb andb].
    rewrite es_binario_app, Hb. unfold ceros at 1.
    rewrite es_binario_ceros. split; [reflexivity|].
    rewrite valor_app, length_app. unfold ceros.
    rewrite Numeral.valor_ceros, repeat_length, Hval.
    split; [lia|]. rewrite Nat2Z.inj_add, Hl. lia.
Qed.



End Escritura.

(** ** Bytes and bit strings *)

Module Bytes.

Import Py.

Lemma bit_length_hasta (v k : Z) : 0 <= k -> 0 <= v < 2 ^ k -> bit_length v <= k.
Proof.
  intros Hk Hv. unfold bit_length. destruct (Z.eqb_spec v 0); [lia|].
  rewrite Z.abs_eq by lia.
  assert (Z.log2 v < k) by (apply Z.log2_lt_pow2; lia). lia.
Qed.

Lemma formato_a_binario (b : Z) : 0 <= b -> formato_08b b = a_binario 8 b.
Proof.
  intros Hb. destruct b as [|p|p]; [reflexivity|reflexivity|lia].
Qed.

(** A byte is written in exactly eight binary digits. *)
Lemma formato_byte (b : Z) :
  es_byte b ->
  es_binario (formato_08b b) = true
  /\ valor (formato_08b b) = b
  /\ length (formato_08b b) = 8%nat.
Proof.
  intros [H0 H256]. rewrite formato_a_binario by exact H0.
  destruct (Escritura.a_binario_escribe 8 b H0) as (Hb & Hv & Hl).
  split; [exact Hb|]. split; [exact Hv|].
  pose proof (bit_length_hasta b 8 ltac:(lia) ltac:(cbn; lia)).
  pose proof (bit_length_nonneg b). lia.
Qed.

Lemma valor_bytes_desde (l : list Z) (a : Z) :
  fold_left (fun acc b => 256 * acc + b) l a
  = a * 256 ^ Z.of_nat (length l) + valor_bytes l.
Proof.
  unfold valor_bytes. revert a. induction l as [|b r IH]; intros a.
  - cbn. lia.
  - cbn [fold_left length]. rewrite IH, (IH (256 * 0 + b)).
    rewrite Nat2Z.inj_succ, Z.pow_succ_r by lia. lia.
Qed.

Lemma valor_bytes_cons (b : Z) (r : list Z) :
  valor_bytes (b :: r) = b * 256 ^ Z.of_nat (length r) + valor_bytes r.
Proof.
  unfold valor_bytes at 1. cbn [fold_left]. rewrite valor_bytes_desde. lia.
Qed.

Lemma valor_bytes_snoc (l : list Z) (x : Z) :
  valor_bytes (l ++ [x]) = 256 * valor_bytes l + x.
Proof. unfold valor_bytes. now rewrite fold_left_app. Qed.

Lemma valor_bytes_cota (l : list Z) :
  Forall es_byte l -> 0 <= valor_bytes l < 256 ^ Z.of_nat (length l).
Proof.
  induction 1 as [|b r [Hb0 Hb1] _ IH].
  - cbn. lia.
  - rewrite valor_bytes_cons. cbn [length].
    rewrite Nat2Z.inj_succ, Z.pow_succ_r by lia.
    assert (0 < 256 ^ Z.of_nat (length r)) by (apply Z.pow_pos_nonneg; lia).
    nia.
Qed.

(** Byte strings of one length that spell the same number are equal. *)
Lemma valor_bytes_inyectivo (l1 l2 : list Z) :
  Forall es_byte l1 -> Forall es_byte l2 -> length l1 = length l2 ->
  valor_bytes l1 = valor_bytes l2 -> l1 = l2.
Proof.
  intros H1. revert l2. induction H1 as [|b1 r1 Hb1 Hr1 IH]; intros l2 H2 Hl Hv.
  - destruct l2; [reflexivity | discriminate].
  - destruct l2 as [|b2 r2]; [discriminate|].
    inversion H2 as [|? ? Hb2 Hr2]; subst. injection Hl as Hl.
    rewrite !valor_bytes_cons, Hl in Hv.
    pose proof (valor_bytes_cota r1 Hr1) as C1.
    pose proof (valor_bytes_cota r2 Hr2) as C2. rewrite Hl in C1.
    assert (b1 = b2) by nia. subst b2.
    f_equal. apply IH; [assumption|assumption|lia].
Qed.

Lemma bytes_a_binario_cons (b : Z) (r : list Z) :
  bytes_a_binario (b :: r) = formato_08b b ++ bytes_a_binario r.
Proof. reflexivity. Qed.

(** The bit string of a byte string: eight digits per byte, spelling the
    same number. *)
Lemma bytes_a_binario_datos (bs : list Z) :
  Forall es_byte bs ->
  es_binario (bytes_a_binario bs) = true
  /\ length (bytes_a_binario bs) = (8 * length bs)%nat
  /\ valor (bytes_a_binario bs) = valor_bytes bs.
Proof.
  induction 1 as [|b r Hb _ (IHb & IHl & IHv)].
  - repeat split.
  - destruct (formato_byte b Hb) as (Fb & Fv & Fl).
    rewrite bytes_a_binario_cons, es_binario_app, Fb, IHb.
    split; [reflexivity|]. split.
    + rewrite length_app, Fl, IHl. cbn [length]. lia.
    + rewrite Escritura.valor_app, Fv, IHv, IHl, valor_bytes_cons.
      rewrite Nat2Z.inj_mul, Z.pow_mul_r by lia. reflexivity.
Qed.

(** The bytes [to_bytes] lays out, least significant last. *)
Lemma bytes_de_valor (v : Z) (k : nat) :
  0 <= v ->
  let l := map (fun i => Z.land (Z.shiftr v (8 * (Z.of_nat k - 1 - Z.of_nat i)))
                           255) (seq 0 k) in
  Forall es_byte l /\ valor_bytes l = v mod 256 ^ Z.of_nat k.
Proof.
  revert v. induction k as [|k IH]; intros v Hv l.
  - subst l. cbn. split; [constructor|]. now rewrite Z.mod_1_r.
  - subst l. rewrite seq_S, map_app. cbn [plus map].
    assert (Hs : 0 <= Z.shiftr v 8) by (apply Z.shiftr_nonneg; lia).
    destruct (IH (Z.shiftr v 8) Hs) as (Hb & Hval).
    assert (Hmap :
      map (fun i => Z.land (Z.shiftr v (8 * (Z.of_nat (S k) - 1 - Z.of_nat i)))
                      255) (seq 0 k)
      = map (fun i => Z.land (Z.shiftr (Z.shiftr v 8)
                                (8 * (Z.of_nat k - 1 - Z.of_nat i))) 255)
          (seq 0 k)).
    { apply map_ext_in. intros i Hi. apply in_seq in Hi.
      rewrite Z.shiftr_shiftr by lia. do 2 f_equal. lia. }
    rewrite Hmap.
    replace (8 * (Z.of_nat (S k) - 1 - Z.of_nat k)) with 0 by lia.
    rewrite Z.shiftr_0_r.
    assert (Hland : Z.land v 255 = v mod 256)
      by (change 255 with (Z.ones 8); now rewrite Z.land_ones by lia).
    rewrite Hland. split.
    + apply Forall_app. split; [exact Hb|].
      repeat constructor; apply Z.mod_pos_bound; lia.
    + rewrite valor_bytes_snoc, Hval.
      rewrite Z.shiftr_div_pow2 by lia. change (2 ^ 8) with 256.
      rewrite Nat2Z.inj_succ, Z.pow_succ_r by lia.
      rewrite (Z.rem_mul_r v 256 (256 ^ Z.of_nat k));
        [lia | lia | apply Z.pow_pos_nonneg; lia].
Qed.

(** What [to_bytes] returns when it returns. *)
Lemma to_bytes_valor (v k : Z) (l : list Z) :
  0 <= k -> to_bytes v k = Ok l ->
  Forall es_byte l /\ valor_bytes l = v /\ length l = Z.to_nat k.
Proof.
  intros Hk H. unfold to_bytes in H.
  destruct (Z.ltb_spec v 0); [discriminate|].
  destruct (Z.leb_spec (256 ^ k) v); [discriminate|].
  cbn [orb] in H. injection H as <-.
  pose proof (bytes_de_valor v (Z.to_nat k) ltac:(lia)) as Hd.
  cbn zeta in Hd. rewrite Z2Nat.id in Hd by exact Hk.
  destruct Hd as (Hb & Hv). split; [exact Hb|]. split.
  - transitivity (v mod 256 ^ k); [exact Hv | apply Z.mod_small; lia].
  - now rewrite length_map, length_seq.
Qed.

Lemma to_bytes_ok (v k : Z) :
  0 <= v < 256 ^ k -> exists l, to_bytes v k = Ok l.
Proof.
  intros Hv. unfold to_bytes.
  destruct (Z.ltb_spec v 0); [lia|].
  destruct (Z.leb_spec (256 ^ k) v); [lia|].
  cbn [orb]. eexists. reflexivity.
Qed.

End Bytes.

Lemma ceros_suma (a b : Z) :
  0 <= a -> 0 <= b -> Py.ceros a ++ Py.ceros b = Py.ceros (a + b).
Proof.
  intros Ha Hb. unfold Py.ceros.
  now rewrite Z2Nat.inj_add, repeat_app by assumption.
Qed.

(** The string that is packed: the input and the zeros that take it to a
    whole number of bytes. *)
Lemma relleno_a_byte (s : list ascii) :
  let pad := (8 - Z.of_nat (length s) mod 8) mod 8 in
  0 <= pad < 8
  /\ Z.of_nat (length (s ++ Py.ceros pad)) = Z.of_nat (length s) + pad
  /\ Z.of_nat (length (s ++ Py.ceros pad)) / 8
     = (Z.of_nat (length s) + 7) / 8
  /\ Z.of_nat (length (s ++ Py.ceros pad))
     = 8 * ((Z.of_nat (length s) + 7) / 8).
Proof.
  intros pad.
  assert (Hpad : 0 <= pad < 8) by (apply Z.mod_pos_bound; lia).
  assert (Hlen : Z.of_nat (length (s ++ Py.ceros pad))
                 = Z.of_nat (length s) + pad).
  { rewrite length_app. unfold Py.ceros. rewrite repeat_length. lia. }
  split; [exact Hpad|]. split; [exact Hlen|].
  rewrite Hlen. unfold pad. split; Z.div_mod_to_equations; lia.
Qed.

(** [binario_a_bytes] and the packing inside [calcular_sha256] are the
    same computation. *)
Lemma binario_a_bytes_a_bytes (s : list ascii) :
  binario_a_bytes s = a_bytes s.
Proof. reflexivity. Qed.

(** What [binario_a_bytes] returns on a non-empty bit string. *)
Lemma binario_a_bytes_forma (s : list ascii) :
  Py.es_binario s = true -> s <> [] ->
  let pad := (8 - Z.of_nat (length s) mod 8) mod 8 in
  exists bs,
    binario_a_bytes s = Ok bs
    /\ Forall es_byte bs
    /\ Z.of_nat (length bs) = (Z.of_nat (length s) + 7) / 8
    /\ bytes_a_binario bs = s ++ Py.ceros pad.
Proof.
  intros Hbin Hne pad.
  destruct (relleno_a_byte s) as (Hpad & Hlen & Hdiv & Hmul). fold pad in Hpad, Hlen, Hdiv, Hmul.
  assert (Hbin' : Py.es_binario (s ++ Py.ceros pad) = true).
  { rewrite es_binario_app, Hbin. apply es_binario_ceros. }
  assert (Hne' : s ++ Py.ceros pad <> []).
  { destruct s; [congruence | discriminate]. }
  pose proof (Numeral.valor_cota (s ++ Py.ceros pad)) as Hc.
  assert (Hk : 0 <= (Z.of_nat (length s) + 7) / 8) by (apply Z.div_pos; lia).
  destruct (Bytes.to_bytes_ok (Py.valor (s ++ Py.ceros pad))
              ((Z.of_nat (length s) + 7) / 8)) as (bs & Hbs).
  { change 256 with (2 ^ 8). rewrite <- Z.pow_mul_r by lia.
    rewrite <- Hmul. exact Hc. }
  exists bs.
  destruct (Bytes.to_bytes_valor _ _ _ Hk Hbs) as (Hb & Hv & Hl).
  split.
  - unfold binario_a_bytes. fold pad.
    rewrite Numeral.int2_valor by assumption. cbn [bind].
    rewrite Hdiv. exact Hbs.
  - split; [exact Hb|]. split; [lia|].
    destruct (Bytes.bytes_a_binario_datos bs Hb) as (Bb & Bl & Bv).
    rewrite <- (a_binario_valor (bytes_a_binario bs) Bb).
    rewrite <- (a_binario_valor (s ++ Py.ceros pad) Hbin').
    rewrite Bv, Hv. f_equal. lia.
Qed.

(** ** Properties of the byte conversions *)

(** X1: the bit string of a byte string is made of '0' and '1' only and
    has eight characters per byte. *)
Theorem X1_bytes_a_binario_forma (datos_bytes : list Z) :
  Forall es_byte datos_bytes ->
  Py.es_binario (bytes_a_binario datos_bytes) = true
  /\ length (bytes_a_binario datos_bytes) = (8 * length datos_bytes)%nat.
Proof.
  intros H. destruct (Bytes.bytes_a_binario_datos datos_bytes H)
    as (Hb & Hl & _).
  split; assumption.
Qed.

Lemma X1_bytes_a_binario_forma_testigo :
  Py.es_binario (bytes_a_binario [72; 111; 0; 255]) = true
  /\ length (bytes_a_binario [72; 111; 0; 255]) = (8 * 4)%nat.
Proof.
  apply (X1_bytes_a_binario_forma [72; 111; 0; 255]).
  repeat constructor; unfold es_byte; lia.
Defined.

(** Packing the bit string of a non-empty byte string gives the bytes. *)
Lemma empaquetar_bytes (datos_bytes : list Z) :
  Forall es_byte datos_bytes -> datos_bytes <> [] ->
  binario_a_bytes (bytes_a_binario datos_bytes) = Ok datos_bytes.
Proof.
  intros Hb Hne.
  destruct (Bytes.bytes_a_binario_datos datos_bytes Hb) as (Bb & Bl & Bv).
  assert (Hs : bytes_a_binario datos_bytes <> []).
  { intros E. rewrite E in Bl. destruct datos_bytes; [congruence|].
    cbn in Bl. lia. }
  destruct (binario_a_bytes_forma _ Bb Hs) as (bs & Hr & Hbs & Hl & Hcat).
  rewrite Hr. f_equal.
  destruct (Bytes.bytes_a_binario_datos bs Hbs) as (_ & Bl' & Bv').
  apply Bytes.valor_bytes_inyectivo; try assumption.
  - rewrite Bl in Hl. apply Nat2Z.inj. rewrite Hl.
    rewrite Nat2Z.inj_mul. Z.div_mod_to_equations. lia.
  - rewrite <- Bv, <- Bv', Hcat, Escritura.valor_app.
    unfold Py.ceros at 2. rewrite Numeral.valor_ceros.
    rewrite Bl. replace ((8 - Z.of_nat (8 * length datos_bytes) mod 8) mod 8)
      with 0 by (rewrite Nat2Z.inj_mul; Z.div_mod_to_equations; lia).
    cbn. lia.
Qed.

(** X2: [binario_a_bytes(bytes_a_binario(b))] returns [b] for every
    non-empty byte string [b], and raises the invalid-literal [ValueError]
    for the empty one, whose bit string is empty. *)
Theorem X2_bytes_ida_y_vuelta (datos_bytes : list Z) :
  Forall es_byte datos_bytes ->
  binario_a_bytes (bytes_a_binario datos_bytes)
  = match datos_bytes with
    | [] => Raise (ValueError LiteralInvalido)
    | _ => Ok datos_bytes
    end.
Proof.
  intros Hb. destruct datos_bytes as [|b r]; [reflexivity|].
  apply empaquetar_bytes; [exact Hb | discriminate].
Qed.

Lemma X2_bytes_ida_y_vuelta_testigo :
  binario_a_bytes (bytes_a_binario [72; 111; 0; 255]) = Ok [72; 111; 0; 255].
Proof.
  apply (X2_bytes_ida_y_vuelta [72; 111; 0; 255]).
  repeat constructor; unfold es_byte; lia.
Defined.

(** X3: on a bit string [binario_a_bytes] raises the invalid-literal
    [ValueError] exactly when the string is empty; otherwise it returns
    one byte per eight bits, rounded up, each from 0 to 255. *)
Theorem X3_binario_a_bytes_resultado (datos_binarios : list ascii) :
  Py.es_binario datos_binarios = true ->
  (binario_a_bytes datos_binarios = Raise (ValueError LiteralInvalido)
   <-> datos_binarios = [])
  /\ (datos_binarios <> [] ->
      exists bs,
        binario_a_bytes datos_binarios = Ok bs
        /\ Forall es_byte bs
        /\ Z.of_nat (length bs)
           = (Z.of_nat (length datos_binarios) + 7) / 8).
Proof.
  intros Hbin. split.
  - split.
    + intros H. destruct datos_binarios as [|c r]; [reflexivity|].
      destruct (binario_a_bytes_forma (c :: r) Hbin ltac:(discriminate))
        as (bs & Hr & _).
      rewrite Hr in H. discriminate.
    + intros ->. reflexivity.
  - intros Hne.
    destruct (binario_a_bytes_forma _ Hbin Hne) as (bs & Hr & Hb & Hl & _).
    exists bs. repeat split; assumption.
Qed.

Lemma X3_binario_a_bytes_resultado_testigo :
  exists bs,
    binario_a_bytes (bits "1010101011"%string) = Ok bs
    /\ Forall es_byte bs
    /\ Z.of_nat (length bs) = 2.
Proof.
  destruct (X3_binario_a_bytes_resultado (bits "1010101011"%string) eq_refl)
    as (_ & H).
  apply H. discriminate.
Defined.

(** X4: [bytes_a_binario(binario_a_bytes(s))] is [s] followed by the zeros
    that take its length to a multiple of eight, for every non-empty bit
    string [s]; it is [s] itself when the length is such a multiple. *)
Theorem X4_binario_ida_y_vuelta (datos_binarios : list ascii) :
  Py.es_binario datos_binarios = true -> datos_binarios <> [] ->
  let largo := Z.of_nat (length datos_binarios) in
  exists bs,
    binario_a_bytes datos_binarios = Ok bs
    /\ bytes_a_binario bs
       = datos_binarios ++ Py.ceros ((8 - largo mod 8) mod 8)
    /\ (largo mod 8 = 0 -> bytes_a_binario bs = datos_binarios).
Proof.
  intros Hbin Hne largo.
  destruct (binario_a_bytes_forma _ Hbin Hne) as (bs & Hr & _ & _ & Hcat).
  exists bs. split; [exact Hr|]. split; [exact Hcat|].
  intros H0. rewrite Hcat. fold largo. rewrite H0. cbn. apply app_nil_r.
Qed.

Lemma X4_binario_ida_y_vuelta_testigo :
  exists bs,
    binario_a_bytes (bits "1010101011"%string) = Ok bs
    /\ bytes_a_binario bs = bits "1010101011000000"%string.
Proof.
  destruct (X4_binario_ida_y_vuelta (bits "1010101011"%string) eq_refl)
    as (bs & Hr & Hcat & _).
  - discriminate.
  - exists bs. split; [exact Hr | exact Hcat].
Defined.

(** X6: two different bit strings of the same length are packed by
    [binario_a_bytes] into different byte strings, so [calcular_sha256]
    hashes different bytes for them. *)
Theorem X6_empaquetado_inyectivo (a b : list ascii) :
  Py.es_binario a = true -> Py.es_binario b = true ->
  a <> [] -> length a = length b -> a <> b ->
  exists x y,
    binario_a_bytes a = Ok x /\ binario_a_bytes b = Ok y /\ x <> y.
Proof.
  intros Ha Hb Hne Hl Hab.
  assert (Hnb : b <> []) by (destruct a, b; try discriminate; congruence).
  destruct (binario_a_bytes_forma a Ha Hne) as (x & Hx & _ & _ & Hxa).
  destruct (binario_a_bytes_forma b Hb Hnb) as (y & Hy & _ & _ & Hyb).
  exists x, y. split; [exact Hx|]. split; [exact Hy|].
  intros ->. rewrite Hyb, Hl in Hxa. apply app_inv_tail in Hxa. congruence.
Qed.

Lemma X6_empaquetado_inyectivo_testigo :
  exists x y,
    binario_a_bytes (bits "1010101011"%string) = Ok x
    /\ binario_a_bytes (bits "1010101010"%string) = Ok y
    /\ x <> y.
Proof.
  apply (X6_empaquetado_inyectivo (bits "1010101011"%string)
           (bits "1010101010"%string)); try reflexivity; discriminate.
Defined.

(** ** Properties of the hash and the verdict *)

Section HashYVeredicto.

Variable sha256_hexdigest : list Z -> list ascii.

(** X7: [calcular_sha256] gives a string and the same string followed by
    zeros up to the next byte boundary the same digest (or the same
    error), because both are padded to the same bytes. *)
Theorem X7_hash_ignora_ceros_finales (s : list ascii) (k : Z) :
  0 <= k <= (8 - Z.of_nat (length s) mod 8) mod 8 ->
  calcular_sha256 sha256_hexdigest (s ++ Py.ceros k)
  = calcular_sha256 sha256_hexdigest s.
Proof.
  intros Hk. unfold calcular_sha256, a_bytes. cbn zeta.
  assert (Hlen : Z.of_nat (length (s ++ Py.ceros k))
                 = Z.of_nat (length s) + k).
  { rewrite length_app. unfold Py.ceros. rewrite repeat_length. lia. }
  assert (Hpad : (8 - Z.of_nat (length (s ++ Py.ceros k)) mod 8) mod 8
                 = (8 - Z.of_nat (length s) mod 8) mod 8 - k).
  { rewrite Hlen. Z.div_mod_to_equations. lia. }
  rewrite Hpad, <- app_assoc, ceros_suma by lia.
  replace (k + ((8 - Z.of_nat (length s) mod 8) mod 8 - k))
    with ((8 - Z.of_nat (length s) mod 8) mod 8) by lia.
  reflexivity.
Qed.

(** X8: on two non-empty bit strings [verificar_integridad] returns
    exactly whether they are the same string, whatever the hash function
    answers; when either string is empty it raises the invalid-literal
    [ValueError]. *)
Theorem X8_veredicto_es_igualdad (original decodificado : list ascii) :
  Py.es_binario original = true -> Py.es_binario decodificado = true ->
  verificar_integridad sha256_hexdigest original decodificado
  = match original, decodificado with
    | [], _ | _, [] => Raise (ValueError LiteralInvalido)
    | _, _ => Ok (cadenas_iguales original decodificado)
    end.
Proof.
  intros Ha Hb.
  destruct original as [|c1 r1]; [reflexivity|].
  destruct (a_bytes_ok (c1 :: r1) Ha ltac:(discriminate)) as (x & Hx).
  destruct decodificado as [|c2 r2].
  - unfold verificar_integridad, calcular_sha256. rewrite Hx. reflexivity.
  - destruct (a_bytes_ok (c2 :: r2) Hb ltac:(discriminate)) as (y & Hy).
    rewrite (verificar_integridad_ok sha256_hexdigest _ _
               (sha256_hexdigest x) (sha256_hexdigest y))
      by (unfold calcular_sha256; now rewrite ?Hx, ?Hy).
    f_equal.
    destruct (cadenas_iguales (c1 :: r1) (c2 :: r2)) eqn:E; [|reflexivity].
    apply cadenas_iguales_iff in E. rewrite E in Hx. rewrite Hx in Hy.
    injection Hy as ->. now rewrite cadenas_iguales_refl.
Qed.

End HashYVeredicto.

Lemma X7_hash_ignora_ceros_finales_testigo :
  calcular_sha256 (fun _ => []) (bits "1010101011"%string ++ Py.ceros 3)
  = calcular_sha256 (fun _ => []) (bits "1010101011"%string).
Proof.
  apply (X7_hash_ignora_ceros_finales (fun _ => [])
           (bits "1010101011"%string) 3).
  cbn. lia.
Defined.

Lemma X8_veredicto_es_igualdad_testigo :
  verificar_integridad (fun _ => []) (bits "1010101011"%string)
    (bits "1010101010"%string)
  = Ok false.
Proof.
  apply (X8_veredicto_es_igualdad (fun _ => [])
           (bits "1010101011"%string) (bits "1010101010"%string));
    reflexivity.
Defined.

(** ** Bytes through the whole codec *)

(** X5: the pipeline of the demonstration and the examples: a non-empty
    byte string turned into bits, encoded, decoded and packed again is the
    byte string itself, under every legal configuration; the slice to the
    original number of bytes that the callers take changes nothing. *)
Theorem X5_bytes_por_el_codec (tiempo : Type) (self : Codificador)
  (transcurrido : tiempo) (datos_bytes : list Z) :
  potencia_legal (base self) (potencia self) ->
  10 <= bits_por_bloque self <= 1000 ->
  Forall es_byte datos_bytes -> datos_bytes <> [] ->
  exists datos_codificados datos_decodificados,
    codificar self transcurrido (bytes_a_binario datos_bytes)
    = Ok datos_codificados
    /\ decodificar self datos_codificados = Ok datos_decodificados
    /\ binario_a_bytes datos_decodificados = Ok datos_bytes
    /\ firstn (length datos_bytes) datos_bytes = datos_bytes.
Proof.
  intros Hp Hn Hb Hne.
  assert (Hv : valido self) by (apply valido_legal; split; assumption).
  destruct (Bytes.bytes_a_binario_datos datos_bytes Hb) as (Hbin & _ & _).
  destruct (flujo_ida_y_vuelta tiempo self transcurrido
              (bytes_a_binario datos_bytes) Hv Hbin) as (c & Hc & Hd & _).
  exists c, (bytes_a_binario datos_bytes).
  split; [exact Hc|]. split; [exact Hd|].
  split; [now apply empaquetar_bytes | apply firstn_all].
Qed.

Lemma X5_bytes_por_el_codec_testigo :
  exists datos_codificados datos_decodificados,
    codificar {| base := 5; potencia := 625; bits_por_bloque := 40 |} tt
      (bytes_a_binario [72; 111; 108; 97]) = Ok datos_codificados
    /\ decodificar {| base := 5; potencia := 625; bits_por_bloque := 40 |}
         datos_codificados = Ok datos_decodificados
    /\ binario_a_bytes datos_decodificados = Ok [72; 111; 108; 97]
    /\ firstn 4 [72; 111; 108; 97] = [72; 111; 108; 97].
Proof.
  apply (X5_bytes_por_el_codec unit
           {| base := 5; potencia := 625; bits_por_bloque := 40 |} tt
           [72; 111; 108; 97]).
  - right. split; [reflexivity|]. cbn. tauto.
  - cbn. lia.
  - repeat constructor; unfold es_byte; lia.
  - discriminate.
Defined.

(** ** The digits of an encoded block *)

Lemma last_cons_cons {A : Type} (x y : A) (l : list A) (d : A) :
  last (x :: y :: l) d = last (y :: l) d.
Proof. reflexivity. Qed.

(** What the encoder chosen by the base returns on a block: a canonical
    digit sequence that the decoder turns back into the block. *)
Lemma codificar_bloque_canonico (self : Codificador) (bloque : list ascii) :
  valido self -> Py.es_binario bloque = true ->
  Z.of_nat (length bloque) = bits_por_bloque self ->
  exists digitos,
    codificar_bloque self bloque = Ok digitos
    /\ digitos_canonicos (potencia self) digitos
    /\ decodificar_bloque self digitos = Ok bloque.
Proof.
  intros Hv Hbin Hlen. unfold codificar_bloque, decodificar_bloque.
  pose proof (Numeral.valor_cota bloque) as Hc.
  destruct (valido_base self Hv) as [Hb|Hb]; rewrite Hb; cbn [Z.eqb Pos.eqb].
  - destruct (valido_base2 self Hv Hb) as (Hw & Hp & _).
    destruct (bloque_base2_correcto self bloque Hv Hb Hbin Hlen)
      as (l & Hl & Hcod & Hran & _ & Hdec).
    destruct (ventanas_ultimo _ _ _ _ Hw (proj1 Hc) Hl) as (Hnil & Hlast).
    exists (canonico l). split; [exact Hcod|]. split; [|exact Hdec].
    split; [apply canonico_no_vacio|]. split; [now rewrite Hp|].
    destruct l as [|d l]; [now left|]. right. apply Hlast.
    destruct (Z.eq_dec (Py.valor bloque) 0) as [Hz|Hz]; [|lia].
    apply Hnil in Hz. discriminate.
  - pose proof (valido_potencia_pos self Hv) as Hp.
    destruct (bloque_base5_correcto self bloque Hv Hbin Hlen)
      as (l & Hl & Hcod & _ & Hdec).
    destruct (Residuos.residuos_digitos (vueltas (Py.valor bloque))
                (potencia self) (Py.valor bloque) Hp)
      as (l' & Hl' & Hran & Hnil & _).
    { split; [lia | apply vueltas_cota; lia]. }
    rewrite Hl in Hl'. injection Hl' as <-.
    pose proof (residuos_ultimo _ _ _ _ Hp (proj1 Hc) Hl) as Hlast.
    exists (canonico l). split; [exact Hcod|]. split; [|exact Hdec].
    split; [apply canonico_no_vacio|].
    split; [apply canonico_Forall; [lia | exact Hran]|].
    destruct l as [|d l]; [now left|]. right. apply Hlast.
    destruct (Z.eq_dec (Py.valor bloque) 0) as [Hz|Hz]; [|lia].
    apply Hnil in Hz. discriminate.
Qed.

Lemma bloques_canonicos (self : Codificador) (bloques : list (list ascii)) :
  valido self ->
  Forall (fun b => Py.es_binario b = true) bloques ->
  Forall (fun b => Z.of_nat (length b) = bits_por_bloque self) bloques ->
  exists codificados,
    Forall2 (fun b c => codificar_bloque self b = Ok c) bloques codificados
    /\ Forall (digitos_canonicos (potencia self)) codificados.
Proof.
  intros Hv Hbin Hlen. induction bloques as [|b r IH].
  - exists []. split; constructor.
  - inversion Hbin as [|? ? Hb Hr]; subst.
    inversion Hlen as [|? ? Hlb Hlr]; subst.
    destruct (IH Hr Hlr) as (cs & Hc & Hd).
    destruct (codificar_bloque_canonico self b Hv Hb Hlb) as (c & Hcb & Hcan & _).
    exists (c :: cs). split; constructor; assumption.
Qed.

Lemma largo_concat (n : Z) (bloques : list (list ascii)) :
  Forall (fun b => Z.of_nat (length b) = n) bloques ->
  Z.of_nat (length (concat bloques)) = Z.of_nat (length bloques) * n.
Proof.
  induction 1 as [|b r Hb _ IH]; [reflexivity|].
  cbn [concat length]. rewrite length_app. lia.
Qed.

(** The stream [codificar] returns, field by field. *)
Lemma codificar_forma (tiempo : Type) (self : Codificador)
  (transcurrido : tiempo) (datos : list ascii) :
  valido self -> Py.es_binario datos = true ->
  exists bloques padding codificados,
    binario_a_bloques self datos = Ok (bloques, padding)
    /\ Forall (digitos_canonicos (potencia self)) codificados
    /\ length codificados = length bloques
    /\ codificar self transcurrido datos
       = Ok {| bloques_codificados := codificados;
               bits_padding := padding;
               d_base := base self;
               d_potencia := potencia self;
               d_bits_por_bloque := bits_por_bloque self;
               num_bloques := Z.of_nat (length bloques);
               bits_originales := Z.of_nat (length datos);
               tiempo_codificacion := transcurrido |}.
Proof.
  intros Hv Hbin. pose proof (valido_tamano self Hv) as Hn.
  destruct (Segmentador.resultado self datos ltac:(lia))
    as (bloques & padding & Hr & _ & Hran & Hcat & Hlen & _).
  assert (Hbs : Forall (fun b => Py.es_binario b = true) bloques).
  { apply es_binario_concat. rewrite Hcat, es_binario_app, Hbin.
    apply es_binario_ceros. }
  destruct (bloques_canonicos self bloques Hv Hbs Hlen) as (cs & Hc & Hcan).
  exists bloques, padding, cs.
  split; [exact Hr|]. split; [exact Hcan|].
  split; [symmetry; eapply Forall2_length; exact Hc|].
  unfold codificar. rewrite Hr. cbn [bind].
  rewrite (para_cada_uno (codificar_bloque self) bloques cs 1 [] Hc).
  reflexivity.
Qed.

(** ** Invariants of an encoded stream *)

(** X9: the stream [codificar] returns under a valid codec records the
    codec's three parameters and the length of the input; its block count
    is the number of encoded blocks and is the length divided by the block
    size, rounded up; the padding is at least zero and below the block
    size, and the original bits plus the padding fill the blocks exactly;
    every encoded block is a canonical digit sequence: not empty, digits
    from zero to below the power, most significant digit not zero unless
    the block is the single zero. *)
Theorem X9_invariantes_del_flujo (tiempo : Type) (self : Codificador)
  (transcurrido : tiempo) (datos : list ascii) :
  valido self -> Py.es_binario datos = true ->
  exists d : DatosCodificados tiempo,
    codificar self transcurrido datos = Ok d
    /\ d_base d = base self
    /\ d_potencia d = potencia self
    /\ d_bits_por_bloque d = bits_por_bloque self
    /\ tiempo_codificacion d = transcurrido
    /\ bits_originales d = Z.of_nat (length datos)
    /\ num_bloques d = Z.of_nat (length (bloques_codificados d))
    /\ num_bloques d
       = (bits_originales d + bits_por_bloque self - 1)
         / bits_por_bloque self
    /\ 0 <= bits_padding d < bits_por_bloque self
    /\ bits_originales d + bits_padding d
       = num_bloques d * bits_por_bloque self
    /\ Forall (digitos_canonicos (potencia self)) (bloques_codificados d).
Proof.
  intros Hv Hbin. pose proof (valido_tamano self Hv) as Hn.
  destruct (codificar_forma tiempo self transcurrido datos Hv Hbin)
    as (bloques & padding & cs & Hr & Hcan & Hlcs & Hcod).
  destruct (Segmentador.resultado self datos ltac:(lia))
    as (bloques' & padding' & Hr' & _ & Hran & Hcat & Hlen & Hcount & _).
  rewrite Hr in Hr'. injection Hr' as <- <-.
  eexists. split; [exact Hcod|].
  cbn [d_base d_potencia d_bits_por_bloque tiempo_codificacion
       bits_originales num_bloques bits_padding bloques_codificados].
  repeat split; try assumption; try lia.
  pose proof (largo_concat _ _ Hlen) as Hc.
  rewrite Hcat, length_app in Hc. unfold Py.ceros in Hc.
  rewrite repeat_length in Hc. lia.
Qed.

Lemma X9_invariantes_del_flujo_testigo :
  exists d : DatosCodificados unit,
    codificar {| base := 2; potencia := 16; bits_por_bloque := 40 |} tt
      (repeat Py.uno 95) = Ok d
    /\ num_bloques d = 3
    /\ bits_padding d = 25
    /\ Forall (digitos_canonicos 16) (bloques_codificados d).
Proof.
  destruct (X9_invariantes_del_flujo unit
              {| base := 2; potencia := 16; bits_por_bloque := 40 |} tt
              (repeat Py.uno 95) eq_refl eq_refl)
    as (d & Hc & _ & _ & _ & _ & Ho & _ & Hn & _ & Hp & Hcan).
  exists d. split; [exact Hc|].
  assert (Hn3 : num_bloques d = 3) by (rewrite Hn, Ho; reflexivity).
  split; [exact Hn3|]. split; [|exact Hcan].
  rewrite Ho, Hn3 in Hp.
  change (95 + bits_padding d = 3 * 40) in Hp. lia.
Defined.

(** ** Efficiency metrics *)

Module Maximos.

Lemma fold_max (r : list Z) (x : Z) :
  x <= fold_left Z.max r x
  /\ Forall (fun y => y <= fold_left Z.max r x) r
  /\ (fold_left Z.max r x = x \/ In (fold_left Z.max r x) r).
Proof.
  revert x. induction r as [|y r IH]; intros x; cbn [fold_left].
  - split; [lia|]. split; [constructor | now left].
  - destruct (IH (Z.max x y)) as (H1 & H2 & H3).
    split; [lia|]. split; [constructor; [lia | exact H2]|].
    destruct H3 as [H3|H3]; [|right; now right].
    destruct (Z.max_spec x y) as [[_ E]|[_ E]]; rewrite E in *.
    + right. left. now rewrite H3.
    + now left.
Qed.

Lemma max_de_cota (l : list Z) (m : Z) :
  max_de l = Some m -> In m l /\ Forall (fun y => y <= m) l.
Proof.
  destruct l as [|x r]; [discriminate|]. cbn. intros H. injection H as <-.
  destruct (fold_max r x) as (H1 & H2 & H3).
  split; [destruct H3 as [->|H3]; [now left | now right]|].
  constructor; assumption.
Qed.

Lemma max_de_vacio (l : list Z) : max_de l = None <-> l = [].
Proof. destruct l; split; (reflexivity || discriminate). Qed.

(** The inner maxima never fail; there are none exactly when no block has
    a digit, and each is the bit length of a digit of some block. *)
Lemma interiores (bloques : list (list Z)) :
  exists ms,
    maximos_interiores bloques = Some ms
    /\ (ms = [] <-> Forall (fun b => b = []) bloques)
    /\ Forall (fun m => exists b d,
                 In b bloques /\ In d b /\ m = Py.bit_length d) ms.
Proof.
  induction bloques as [|b r (ms & Hms & Hnil & Hin)].
  - exists []. split; [reflexivity|]. split; [|constructor].
    split; intros; [constructor | reflexivity].
  - destruct b as [|x b'].
    + exists ms. cbn. split; [exact Hms|]. split.
      * rewrite Hnil. split; intros H.
        -- now constructor.
        -- now inversion H.
      * eapply Forall_impl; [|exact Hin]. cbn.
        intros m (b & d & Hb & Hd & Hm). exists b, d. auto.
    + destruct (max_de (map Py.bit_length (x :: b'))) as [m|] eqn:Em;
        [|discriminate].
      exists (m :: ms). cbn [maximos_interiores no_vacio].
      rewrite Em, Hms. split; [reflexivity|]. split.
      * split; [discriminate|]. intros H. inversion H. discriminate.
      * constructor.
        -- apply max_de_cota in Em. destruct Em as (Em & _).
           apply in_map_iff in Em. destruct Em as (d & Hd & Hi).
           exists (x :: b'), d. split; [now left|]. split; [exact Hi | now symmetry].
        -- eapply Forall_impl; [|exact Hin]. cbn.
           intros m' (b & d & Hb & Hd & Hm). exists b, d.
           split; [now right|]. split; assumption.
Qed.

Lemma total_no_negativo (bloques : list (list Z)) :
  total_de_valores bloques = Z.of_nat (length (concat bloques)).
Proof.
  unfold total_de_valores.
  assert (H : forall a, fold_left (fun acc b => acc + Z.of_nat (length b))
                          bloques a
                        = a + Z.of_nat (length (concat bloques))).
  { induction bloques as [|b r IH]; intros a; cbn [fold_left concat].
    - cbn. lia.
    - rewrite IH, length_app. lia. }
  now rewrite H.
Qed.

Lemma bit_length_creciente (a b : Z) :
  0 <= a <= b -> Py.bit_length a <= Py.bit_length b.
Proof.
  intros H. unfold Py.bit_length.
  destruct (Z.eqb_spec a 0) as [->|Ha].
  - destruct (b =? 0); [lia|]. pose proof (Z.log2_nonneg (Z.abs b)). lia.
  - destruct (Z.eqb_spec b 0); [lia|].
    rewrite !Z.abs_eq by lia.
    pose proof (Z.log2_le_mono a b ltac:(lia)). lia.
Qed.

End Maximos.

Section PropiedadesMetricas.

Variable tiempo : Type.
Variable flotante : Type.
Variable division : Z -> Z -> flotante.

(** X10: [calcular_metricas] raises the [ValueError] of [max] exactly when
    no encoded block of the stream has a digit, whatever the original
    data are; it raises [ZeroDivisionError] exactly when some block has a
    digit and the original data are empty; in every other case it returns
    the metrics, with the length of the data, the block count and the
    time of the stream, and the expansion rate that is the quotient of the
    estimated bits by that length. *)
Theorem X10_metricas_fallos (datos_originales : list ascii)
  (d : DatosCodificados tiempo) :
  let sin_digitos := Forall (fun b => b = []) (bloques_codificados d) in
  (calcular_metricas division datos_originales d = inl MaxDeSecuenciaVacia
   <-> sin_digitos)
  /\ (calcular_metricas division datos_originales d = inl DivisionEntreCero
      <-> ~ sin_digitos /\ datos_originales = [])
  /\ (~ sin_digitos -> datos_originales <> [] ->
      exists m,
        calcular_metricas division datos_originales d = inr m
        /\ m_bits_originales m = Z.of_nat (length datos_originales)
        /\ m_num_bloques m = num_bloques d
        /\ m_tiempo_codificacion m = tiempo_codificacion d
        /\ m_tasa_expansion m
           = division (m_bits_codificados m)
               (Z.of_nat (length datos_originales))).
Proof.
  intros sin_digitos. unfold calcular_metricas.
  destruct (Maximos.interiores (bloques_codificados d))
    as (ms & Hms & Hnil & _).
  rewrite Hms. fold sin_digitos in Hnil.
  destruct ms as [|m0 ms].
  - cbn [max_de]. assert (Hs : sin_digitos) by now apply Hnil.
    split; [tauto|]. split; [|tauto].
    split; [discriminate | tauto].
  - assert (Hs : ~ sin_digitos).
    { intros H. apply Hnil in H. discriminate. }
    cbn [max_de].
    destruct (Z.eqb_spec (Z.of_nat (length datos_originales)) 0) as [H0|H0].
    + assert (datos_originales = []) by (destruct datos_originales;
                                          [reflexivity | discriminate]).
      split; [split; [discriminate | tauto]|].
      split; [tauto | tauto].
    + assert (datos_originales <> []) by (intros ->; now apply H0).
      split; [split; [discriminate | tauto]|].
      split; [split; [discriminate | tauto]|].
      intros _ _. eexists. split; [reflexivity|]. repeat split.
Qed.

End PropiedadesMetricas.

Lemma X10_metricas_fallos_testigo :
  calcular_metricas Z.div [] 
    {| bloques_codificados := [];
       bits_padding := 0;
       d_base := 2;
       d_potencia := 16;
       d_bits_por_bloque := 40;
       num_bloques := 0;
       bits_originales := 0;
       tiempo_codificacion := tt |}
  = inl MaxDeSecuenciaVacia
  /\ exists m,
       calcular_metricas Z.div (bits "1010101011"%string)
         {| bloques_codificados := [[11; 10; 10]];
            bits_padding := 0;
            d_base := 2;
            d_potencia := 16;
            d_bits_por_bloque := 10;
            num_bloques := 1;
            bits_originales := 10;
            tiempo_codificacion := tt |}
       = inr m
       /\ m_bits_originales m = 10
       /\ m_num_bloques m = 1.
Proof.
  split.
  - apply (X10_metricas_fallos unit Z Z.div []). constructor.
  - destruct (X10_metricas_fallos unit Z Z.div (bits "1010101011"%string)
                {| bloques_codificados := [[11; 10; 10]];
                   bits_padding := 0;
                   d_base := 2;
                   d_potencia := 16;
                   d_bits_por_bloque := 10;
                   num_bloques := 1;
                   bits_originales := 10;
                   tiempo_codificacion := tt |}) as (_ & _ & H).
    destruct H as (m & Hm & Ho & Hn & _).
    + intros Hs. inversion Hs. discriminate.
    + discriminate.
    + exists m. split; [exact Hm|]. split; [exact Ho | exact Hn].
Defined.

Lemma concat_no_vacios {A : Type} (l : list (list A)) :
  Forall (fun b => b <> []) l -> (length l <= length (concat l))%nat.
Proof.
  induction 1 as [|b r Hb _ IH]; [apply Nat.le_refl|].
  cbn [concat length]. rewrite length_app.
  destruct b; [congruence | cbn; lia].
Qed.

Section MetricasDelCodec.

Variable tiempo : Type.
Variable flotante : Type.
Variable division : Z -> Z -> flotante.

(** X11: on the stream a valid codec returns for a bit string,
    [calcular_metricas] raises the [ValueError] of [max] when the string
    is empty, and otherwise returns; the estimated encoded bits are then
    the number of digits times a width that is at least zero and at most
    the bit length of the power minus one, and the number of digits is at
    least the number of blocks. *)
Theorem X11_metricas_del_codec (self : Codificador) (transcurrido : tiempo)
  (datos : list ascii) :
  valido self -> Py.es_binario datos = true ->
  exists d,
    codificar self transcurrido datos = Ok d
    /\ match datos with
       | [] =>
           calcular_metricas division datos d = inl MaxDeSecuenciaVacia
       | _ =>
           exists m bits_por_valor,
             calcular_metricas division datos d = inr m
             /\ m_bits_originales m = Z.of_nat (length datos)
             /\ m_num_bloques m
                = (Z.of_nat (length datos) + bits_por_bloque self - 1)
                  / bits_por_bloque self
             /\ m_bits_codificados m
                = total_de_valores (bloques_codificados d) * bits_por_valor
             /\ 0 <= bits_por_valor <= Py.bit_length (potencia self - 1)
             /\ num_bloques d <= total_de_valores (bloques_codificados d)
       end.
Proof.
  intros Hv Hbin. pose proof (valido_tamano self Hv) as Hn.
  pose proof (valido_potencia_pos self Hv) as Hp.
  destruct (codificar_forma tiempo self transcurrido datos Hv Hbin)
    as (bloques & padding & cs & Hr & Hcan & Hlcs & Hcod).
  destruct (Segmentador.resultado self datos ltac:(lia))
    as (bloques' & padding' & Hr' & _ & _ & _ & _ & Hcount & _).
  rewrite Hr in Hr'. injection Hr' as <- <-.
  eexists. split; [exact Hcod|].
  destruct datos as [|c r].
  - cbn [length Z.of_nat] in Hcount.
    rewrite Z.div_small in Hcount by lia.
    destruct bloques; [|discriminate]. destruct cs; [|discriminate].
    reflexivity.
  - unfold calcular_metricas.
    cbn [bloques_codificados num_bloques tiempo_codificacion].
    destruct (Maximos.interiores cs) as (ms & Hms & Hnil & Hin).
    rewrite Hms.
    assert (Hpos : 0 < Z.of_nat (length bloques)).
    { rewrite Hcount. apply Z.div_str_pos. cbn [length]. lia. }
    destruct ms as [|m0 ms].
    { exfalso. assert (H : Forall (fun b => b = []) cs) by now apply Hnil.
      destruct cs as [|c0 cs]; [cbn in Hlcs; lia|].
      inversion H as [|? ? H0 _]; subst.
      inversion Hcan as [|? ? [Hne _] _]. congruence. }
    destruct (max_de (m0 :: ms)) as [bpv|] eqn:Em; [|discriminate].
    destruct (Z.eqb_spec (Z.of_nat (length (c :: r))) 0) as [H0|_];
      [discriminate|].
    eexists. exists bpv. split; [reflexivity|].
    cbn [m_bits_originales m_num_bloques m_bits_codificados].
    split; [reflexivity|]. split; [exact Hcount|]. split; [reflexivity|].
    split.
    + apply Maximos.max_de_cota in Em. destruct Em as (Em & _).
      rewrite Forall_forall in Hin.
      destruct (Hin _ Em) as (b & dg & Hb & Hd & ->).
      rewrite Forall_forall in Hcan.
      destruct (Hcan _ Hb) as (_ & Hran & _).
      rewrite Forall_forall in Hran. specialize (Hran _ Hd).
      split; [apply bit_length_nonneg|].
      apply Maximos.bit_length_creciente. lia.
    + rewrite Maximos.total_no_negativo, <- Hlcs.
      apply inj_le. apply concat_no_vacios.
      eapply Forall_impl; [|exact Hcan]. cbn. intros b (Hne & _). exact Hne.
Qed.

End MetricasDelCodec.

Lemma X11_metricas_del_codec_testigo :
  exists d,
    codificar {| base := 2; potencia := 256; bits_por_bloque := 100 |} tt
      (repeat Py.uno 100) = Ok d
    /\ exists m bits_por_valor,
         calcular_metricas Z.div (repeat Py.uno 100) d = inr m
         /\ m_bits_originales m = 100
         /\ m_num_bloques m = 1
         /\ m_bits_codificados m
            = total_de_valores (bloques_codificados d) * bits_por_valor
         /\ 0 <= bits_por_valor <= 8
         /\ num_bloques d <= total_de_valores (bloques_codificados d).
Proof.
  exact (X11_metricas_del_codec unit Z Z.div
           {| base := 2; potencia := 256; bits_por_bloque := 100 |} tt
           (repeat Py.uno 100) eq_refl eq_refl).
Defined.

(** ** Canonical digit sequences and the two codecs *)

Module Canonicos.

(** Under a window of [w] bits the loop of the base-2 encoder is the loop
    of the base-5 encoder with divisor [2 ^ w]. *)
Lemma ventanas_como_residuos (fuel : nat) (w v : Z) (acc : list Z) :
  0 <= w ->
  bucle_ventanas fuel w (2 ^ w - 1) v acc = bucle_residuos fuel (2 ^ w) v acc.
Proof.
  intros Hw. revert v acc. induction fuel as [|fuel IH]; intros v acc.
  - reflexivity.
  - cbn [bucle_ventanas bucle_residuos]. destruct (v >? 0); [|reflexivity].
    unfold desplazar_der. destruct (Z.ltb_spec w 0); [lia|].
    assert (Hp : 0 < 2 ^ w) by (apply Z.pow_pos_nonneg; lia).
    destruct (Z.eqb_spec (2 ^ w) 0); [lia|]. cbn [bind].
    rewrite IH, Z.shiftr_div_pow2 by lia.
    replace (2 ^ w - 1) with (Z.ones w) by (rewrite Z.ones_equiv; lia).
    now rewrite Z.land_ones by lia.
Qed.

Lemma suma_ventanas_como_residuos (w : Z) (k : nat) (l : list Z) :
  0 <= w ->
  suma (fun i d => Z.shiftl d (i * w)) k l
  = suma (fun i d => d * (2 ^ w) ^ i) k l.
Proof.
  intros Hw. revert k. induction l as [|d l IH]; intros k; [reflexivity|].
  rewrite !suma_cons, IH. f_equal.
  rewrite Z.shiftl_mul_pow2 by nia.
  rewrite <- Z.pow_mul_r by lia. do 2 f_equal. lia.
Qed.

Lemma suma_siguiente (p : Z) (k : nat) (l : list Z) :
  suma (fun i d => d * p ^ i) (S k) l = p * suma (fun i d => d * p ^ i) k l.
Proof.
  revert k. induction l as [|d l IH]; intros k; [cbn; lia|].
  rewrite !suma_cons, IH, Nat2Z.inj_succ, Z.pow_succ_r by lia. ring.
Qed.

(** Digits below the power whose last one is not zero are what the loop
    of the encoder leaves for the number they spell, and that number is at
    least the power raised to the index of the last digit. *)
Lemma residuos_de_canonicos (p : Z) (l : list Z) :
  2 <= p -> Forall (fun d => 0 <= d < p) l ->
  (l <> [] -> last l 0 <> 0) ->
  let v := suma (fun i d => d * p ^ i) 0 l in
  0 <= v
  /\ (l <> [] -> p ^ (Z.of_nat (length l) - 1) <= v)
  /\ bucle_residuos (length l) p v [] = Ok l.
Proof.
  intros Hp Hran. induction Hran as [|d r Hd Hr IH]; intros Hlast v.
  - subst v. cbn. split; [lia|]. split; [congruence | reflexivity].
  - assert (Hlast' : r <> [] -> last r 0 <> 0).
    { intros Hne. destruct r as [|x r]; [congruence|].
      rewrite last_cons_cons in Hlast. apply Hlast. discriminate. }
    destruct (IH Hlast') as (Hv0 & Hlow & Hb).
    set (vr := suma (fun i d => d * p ^ i) 0 r) in *.
    assert (Ev : v = d + p * vr).
    { subst v vr. rewrite suma_cons, suma_siguiente. cbn [Z.of_nat]. 
      rewrite Z.pow_0_r. lia. }
    assert (Hpos : 0 < v /\ p ^ (Z.of_nat (length (d :: r)) - 1) <= v).
    { cbn [length]. rewrite Nat2Z.inj_succ.
      replace (Z.succ (Z.of_nat (length r)) - 1) with (Z.of_nat (length r))
        by lia.
      destruct r as [|x r].
      - cbn [length Z.of_nat]. rewrite Z.pow_0_r.
        assert (d <> 0) by (apply Hlast; discriminate). lia.
      - specialize (Hlow ltac:(discriminate)).
        replace (Z.of_nat (length (x :: r)))
          with (Z.succ (Z.of_nat (length (x :: r)) - 1)) by lia.
        rewrite Z.pow_succ_r by (cbn [length]; lia).
        assert (0 < p ^ (Z.of_nat (length (x :: r)) - 1))
          by (apply Z.pow_pos_nonneg; cbn [length]; lia).
        nia. }
    split; [lia|]. split; [intros _; apply Hpos|].
    cbn [length]. rewrite Residuos.residuos_paso by lia.
    assert (Hq : v / p = vr).
    { symmetry. apply (Z.div_unique_pos v p vr d); lia. }
    assert (Hm : v mod p = d).
    { symmetry. apply (Z.mod_unique_pos v p vr d); lia. }
    rewrite Hq, Hm, Hb. reflexivity.
Qed.

(** The encoder's loop, run with the turns [vueltas] allows, leaves a
    canonical digit sequence for the number it spells. *)
Lemma residuos_de_suma (p : Z) (l : list Z) :
  2 <= p -> Forall (fun d => 0 <= d < p) l ->
  (l <> [] -> last l 0 <> 0) ->
  bucle_residuos (vueltas (suma (fun i d => d * p ^ i) 0 l)) p
    (suma (fun i d => d * p ^ i) 0 l) [] = Ok l.
Proof.
  intros Hp Hran Hlast.
  destruct (residuos_de_canonicos p l Hp Hran Hlast) as (Hv & _ & Hb).
  set (v := suma (fun i d => d * p ^ i) 0 l) in *.
  destruct (Residuos.residuos_digitos (vueltas v) p v Hp) as (l' & Hl' & _).
  { split; [exact Hv | now apply vueltas_cota]. }
  pose proof (Vueltas.residuos_mas _ (length l) _ _ _ Hl') as H1.
  pose proof (Vueltas.residuos_mas _ (vueltas v) _ _ _ Hb) as H2.
  rewrite Nat.add_comm in H2. rewrite H1 in H2. injection H2 as ->.
  exact Hl'.
Qed.

Lemma canonicos_sin_cero (p : Z) (l : list Z) :
  digitos_canonicos p l ->
  l = [0] \/ (Forall (fun d => 0 <= d < p) l /\ l <> [] /\ last l 0 <> 0).
Proof.
  intros (Hne & Hran & [H|H]); [now left | right; auto].
Qed.

End Canonicos.

(** The number a canonical digit sequence spells is not negative, and the
    encoder's loop turns it back into the sequence. *)
Lemma canonicos_valor (p : Z) (l : list Z) :
  2 <= p -> digitos_canonicos p l ->
  let v := suma_residuos p l in
  0 <= v
  /\ (exists l', bucle_residuos (vueltas v) p v [] = Ok l' /\ canonico l' = l)
  /\ (Z.of_nat (length l) - 1) * Z.log2 p <= Z.log2 v.
Proof.
  intros Hp Hcan v. unfold suma_residuos in v.
  destruct (Canonicos.canonicos_sin_cero p l Hcan)
    as [->|(Hran & Hne & Hlast)].
  - subst v. cbn. split; [lia|]. split; [now exists []|lia].
  - destruct (Canonicos.residuos_de_canonicos p l Hp Hran (fun _ => Hlast))
      as (Hv & Hlow & _). fold v in Hv, Hlow. specialize (Hlow Hne).
    split; [exact Hv|]. split.
    + exists l. split.
      * now apply Canonicos.residuos_de_suma.
      * destruct l; [congruence | reflexivity].
    + assert (Hk : 0 <= Z.of_nat (length l) - 1)
        by (destruct l; [congruence | cbn [length]; lia]).
      assert (Hlp : 0 < Z.log2 p) by (apply Z.log2_pos; lia).
      apply Z.log2_le_pow2.
      * assert (0 < p ^ (Z.of_nat (length l) - 1))
          by (apply Z.pow_pos_nonneg; lia). lia.
      * eapply Z.le_trans; [|exact Hlow].
        rewrite Z.mul_comm, Z.pow_mul_r by lia.
        apply Z.pow_le_mono_l. split; [apply Z.pow_nonneg; lia|].
        apply Z.log2_spec. lia.
Qed.

(** What the decoder chosen by the base makes of a canonical digit
    sequence: the number the digits spell, written by [a_binario]. *)
Lemma decodificar_bloque_canonicos (self : Codificador) (l : list Z) :
  valido self -> digitos_canonicos (potencia self) l ->
  decodificar_bloque self l
  = Ok (a_binario (bits_por_bloque self) (suma_residuos (potencia self) l)).
Proof.
  intros Hv (Hne & Hran & _). unfold decodificar_bloque.
  destruct (valido_base self Hv) as [Hb|Hb]; rewrite Hb; cbn [Z.eqb Pos.eqb].
  - destruct (valido_base2 self Hv Hb) as (Hw & Hp & Hbl).
    unfold decodificar_bloque_base2. rewrite Hbl.
    rewrite reconstruir_base2_suma; [|lia|now rewrite <- Hp].
    cbn [bind]. unfold suma_ventanas, suma_residuos.
    rewrite Canonicos.suma_ventanas_como_residuos by lia.
    now rewrite <- Hp.
  - unfold decodificar_bloque_base5. now rewrite reconstruir_base5_suma.
Qed.


(** X12: under a valid base-2 codec the two block encoders are the same
    function of the block, and the two block decoders agree on every
    digit sequence whose digits are from zero to below the power: the
    window codec is the positional codec for a power of two. *)
Theorem X12_codecs_coinciden_en_base2 (self : Codificador) :
  valido self -> base self = 2 ->
  (forall bloque,
     codificar_bloque_base2 self bloque = codificar_bloque_base5 self bloque)
  /\ (forall digitos,
        Forall (fun d => 0 <= d < potencia self) digitos ->
        decodificar_bloque_base2 self digitos
        = decodificar_bloque_base5 self digitos).
Proof.
  intros Hv Hb. destruct (valido_base2 self Hv Hb) as (Hw & Hp & Hbl).
  split.
  - intros bloque. unfold codificar_bloque_base2, codificar_bloque_base5.
    destruct (Py.int2 bloque); try reflexivity. cbn [bind]. rewrite Hbl.
    remember (Z.log2 (potencia self)) as w eqn:Ew. rewrite Hp.
    now rewrite Canonicos.ventanas_como_residuos by lia.
  - intros digitos Hran.
    unfold decodificar_bloque_base2, decodificar_bloque_base5.
    rewrite Hbl, reconstruir_base2_suma; [|lia|now rewrite <- Hp].
    cbn [bind]. rewrite reconstruir_base5_suma.
    unfold suma_ventanas, suma_residuos.
    rewrite Canonicos.suma_ventanas_como_residuos by lia.
    now rewrite <- Hp.
Qed.

Lemma X12_codecs_coinciden_en_base2_testigo :
  codificar_bloque_base2
    {| base := 2; potencia := 256; bits_por_bloque := 10 |}
    (bits "1010101011"%string)
  = codificar_bloque_base5
      {| base := 2; potencia := 256; bits_por_bloque := 10 |}
      (bits "1010101011"%string).
Proof.
  apply (X12_codecs_coinciden_en_base2
           {| base := 2; potencia := 256; bits_por_bloque := 10 |});
    reflexivity.
Defined.



(** X14: the block encoder returns, for a block of [bits_por_bloque]
    bits, at most as many digits as windows of [log2 potencia] bits are
    needed to cover the block: one less than the number of digits, times
    [log2 potencia], is below the block size. *)
Theorem X14_cantidad_de_digitos (self : Codificador) (bloque : list ascii) :
  valido self -> Py.es_binario bloque = true ->
  Z.of_nat (length bloque) = bits_por_bloque self ->
  exists digitos,
    codificar_bloque self bloque = Ok digitos
    /\ (Z.of_nat (length digitos) - 1) * Z.log2 (potencia self)
       < bits_por_bloque self.
Proof.
  intros Hv Hbin Hlen. pose proof (valido_potencia_pos self Hv) as Hp.
  pose proof (valido_tamano self Hv) as Hn.
  destruct (codificar_bloque_canonico self bloque Hv Hbin Hlen)
    as (l & Hcod & Hcan & Hdec).
  exists l. split; [exact Hcod|].
  rewrite decodificar_bloque_canonicos in Hdec by assumption.
  injection Hdec as Hdec.
  destruct (canonicos_valor (potencia self) l Hp Hcan) as (Hv0 & _ & Hlog).
  destruct (Escritura.a_binario_escribe (bits_por_bloque self)
              (suma_residuos (potencia self) l) Hv0) as (_ & Hval & _).
  rewrite Hdec in Hval.
  pose proof (Numeral.valor_cota bloque) as Hc. rewrite Hlen, Hval in Hc.
  destruct (Z.eq_dec (suma_residuos (potencia self) l) 0) as [Hz|Hz].
  - rewrite Hz in Hlog. cbn in Hlog. lia.
  - assert (Z.log2 (suma_residuos (potencia self) l) < bits_por_bloque self)
      by (apply Z.log2_lt_pow2; lia).
    lia.
Qed.

Lemma X14_cantidad_de_digitos_testigo :
  exists digitos,
    codificar_bloque {| base := 2; potencia := 256; bits_por_bloque := 10 |}
      (bits "1010101011"%string) = Ok digitos
    /\ (Z.of_nat (length digitos) - 1) * 8 < 10.
Proof.
  exact (X14_cantidad_de_digitos
           {| base := 2; potencia := 256; bits_por_bloque := 10 |}
           (bits "1010101011"%string) eq_refl eq_refl eq_refl).
Defined.



(** ** The decoder on arbitrary streams *)




Section DecodificadorTotal.

Variable tiempo : Type.


End DecodificadorTotal.


(** ** Data made of zeros *)

Lemma bloques_de_ceros (bloques : list (list ascii)) :
  Forall (fun c => c = Py.cero) (concat bloques) ->
  Forall (fun b => b = repeat Py.cero (length b)) bloques.
Proof.
  induction bloques as [|b r IH]; intros H; [constructor|].
  cbn [concat] in H. apply Forall_app in H. destruct H as (Hb & Hr).
  constructor; [|now apply IH].
  clear -Hb. induction Hb as [|c l -> _ IHl]; [reflexivity|].
  cbn [length repeat]. now rewrite <- IHl.
Qed.

Lemma codificar_bloque_de_ceros (self : Codificador) (n : nat) :
  (0 < n)%nat -> codificar_bloque self (repeat Py.cero n) = Ok [0].
Proof.
  intros Hn. unfold codificar_bloque, codificar_bloque_base2,
    codificar_bloque_base5.
  rewrite int2_ceros by exact Hn. now destruct (base self =? 2).
Qed.

Lemma todos_en_repeat {A B : Type} (R : A -> B -> Prop) (l : list A) (y : B) :
  Forall (fun x => R x y) l -> Forall2 R l (repeat y (length l)).
Proof. induction 1; cbn; constructor; assumption. Qed.

Section MetricasDeCeros.

Variable tiempo : Type.
Variable flotante : Type.
Variable division : Z -> Z -> flotante.

(** X17: for data made only of zeros every encoded block is the single
    digit zero, whose bit length is zero, so [calcular_metricas] estimates
    zero encoded bits for them, under every valid codec. *)
Theorem X17_metricas_de_ceros (self : Codificador) (transcurrido : tiempo)
  (k : nat) :
  valido self -> (0 < k)%nat ->
  exists d m,
    codificar self transcurrido (repeat Py.cero k) = Ok d
    /\ Forall (fun c => c = [0]) (bloques_codificados d)
    /\ calcular_metricas division (repeat Py.cero k) d = inr m
    /\ m_bits_codificados m = 0.
Proof.
  intros Hv Hk. pose proof (valido_tamano self Hv) as Hn.
  destruct (Segmentador.resultado self (repeat Py.cero k) ltac:(lia))
    as (bloques & padding & Hr & _ & _ & Hcat & Hlen & Hcount & _).
  assert (Hz : Forall (fun b => codificar_bloque self b = Ok [0]) bloques).
  { assert (Hc : Forall (fun c => c = Py.cero) (concat bloques)).
    { rewrite Hcat. apply Forall_app. split; apply Forall_forall;
        intros c Hc; now apply repeat_spec in Hc. }
    apply bloques_de_ceros in Hc. rewrite Forall_forall in *.
    intros b Hb. rewrite (Hc b Hb). apply codificar_bloque_de_ceros.
    specialize (Hlen b Hb). lia. }
  apply (todos_en_repeat (fun b c => codificar_bloque self b = Ok c)
           bloques [0]) in Hz.
  assert (Hpos : (0 < length bloques)%nat).
  { apply Nat2Z.inj_lt. rewrite Hcount. apply Z.div_str_pos.
    rewrite repeat_length. lia. }
  pose (d := {| bloques_codificados := repeat [0] (length bloques);
                bits_padding := padding;
                d_base := base self;
                d_potencia := potencia self;
                d_bits_por_bloque := bits_por_bloque self;
                num_bloques := Z.of_nat (length bloques);
                bits_originales := Z.of_nat (length (repeat Py.cero k));
                tiempo_codificacion := transcurrido |}).
  assert (Hcod : codificar self transcurrido (repeat Py.cero k) = Ok d).
  { unfold codificar. rewrite Hr. cbn [bind].
    now rewrite (para_cada_uno (codificar_bloque self) bloques _ 1 [] Hz). }
  exists d.
  assert (Hm : exists m,
             calcular_metricas division (repeat Py.cero k) d = inr m
             /\ m_bits_codificados m = 0).
  { unfold calcular_metricas. cbn [bloques_codificados d].
    destruct (Maximos.interiores (repeat [0] (length bloques)))
      as (ms & Hms & Hnil & Hin).
    rewrite Hms.
    destruct (max_de ms) as [bpv|] eqn:Em.
    - assert (Hb0 : bpv = 0).
      { apply Maximos.max_de_cota in Em. destruct Em as (Em & _).
        rewrite Forall_forall in Hin.
        destruct (Hin _ Em) as (b & dg & Hb & Hd & ->).
        apply repeat_spec in Hb. subst b.
        destruct Hd as [<-|[]]. reflexivity. }
      destruct (Z.eqb_spec (Z.of_nat (length (repeat Py.cero k))) 0)
        as [H0|_].
      { rewrite repeat_length in H0. lia. }
      eexists. split; [reflexivity|].
      cbn [m_bits_codificados]. rewrite Hb0. lia.
    - exfalso. apply Maximos.max_de_vacio in Em. apply Hnil in Em.
      destruct (length bloques); [lia|]. inversion Em. discriminate. }
  destruct Hm as (m & Hm & Hm0). exists m.
  split; [exact Hcod|]. split; [|split; assumption].
  apply Forall_forall. intros c Hc. now apply repeat_spec in Hc.
Qed.

End MetricasDeCeros.

Lemma X17_metricas_de_ceros_testigo :
  exists d m,
    codificar {| base := 2; potencia := 16; bits_por_bloque := 50 |} tt
      (repeat Py.cero 200) = Ok d
    /\ Forall (fun c => c = [0]) (bloques_codificados d)
    /\ calcular_metricas Z.div (repeat Py.cero 200) d = inr m
    /\ m_bits_codificados m = 0.
Proof.
  apply (X17_metricas_de_ceros unit Z Z.div
           {| base := 2; potencia := 16; bits_por_bloque := 50 |} tt 200).
  - reflexivity.
  - lia.
Defined.

(** ** The verifier after a round trip *)

Section VerificarTrasElCodec.

Variable tiempo : Type.
Variable sha256_hexdigest : list Z -> list ascii.

(** X18: encoding a bit string, decoding the stream and verifying the
    result against the original, as the demonstration and the examples
    do, returns [True] for every non-empty bit string under every valid
    codec, and raises the invalid-literal [ValueError] for the empty
    string. *)
Theorem X18_verificar_tras_el_codec (self : Codificador)
  (transcurrido : tiempo) (datos : list ascii) :
  valido self -> Py.es_binario datos = true ->
  (d <- codificar self transcurrido datos ;;
   decodificados <- decodificar self d ;;
   verificar_integridad sha256_hexdigest datos decodificados)
  = match datos with
    | [] => Raise (ValueError LiteralInvalido)
    | _ => Ok true
    end.
Proof.
  intros Hv Hbin.
  destruct (flujo_ida_y_vuelta tiempo self transcurrido datos Hv Hbin)
    as (c & Hc & Hd & _).
  rewrite Hc. cbn [bind]. rewrite Hd. cbn [bind].
  destruct datos as [|x r]; [reflexivity|].
  apply verificar_identicos; [exact Hbin | discriminate].
Qed.

End VerificarTrasElCodec.

Lemma X18_verificar_tras_el_codec_testigo :
  (d <- codificar {| base := 5; potencia := 125; bits_por_bloque := 50 |} tt
          (bytes_a_binario [80; 121]) ;;
   decodificados <-
     decodificar {| base := 5; potencia := 125; bits_por_bloque := 50 |} d ;;
   verificar_integridad (fun _ => []) (bytes_a_binario [80; 121])
     decodificados)
  = Ok true.
Proof.
  apply (X18_verificar_tras_el_codec unit (fun _ => [])
           {| base := 5; potencia := 125; bits_por_bloque := 50 |} tt
           (bytes_a_binario [80; 121])); reflexivity.
Defined.
